(** * Offline helper of the hearing-loss simulator: chunk scheduler and
    output reassembly

    Shallow embedding of [hearinglosssimulator/offlinehelper.py]:
    [make_processing_loop] (with its inner generator [loop]),
    [run_one_class_offline], [compute_numpy], [WaveNumpy] and
    [compute_wave_file].

    Conventions of the embedding.
    - Python integers are [Z]; array lengths and channel counts are [nat].
    - A numpy array of rank two is a record of a dtype tag, a column count
      and the list of its rows.  Samples are an abstract type: the helper
      only copies, zero-fills and casts them.
    - Row slicing [a[start:stop, :]] follows Python's resolution of slice
      bounds (negative bounds count from the end, all bounds are clipped).
    - The processing class (InvCGC in the callers) is a parameter: a state
      type, a constructor and the per-chunk method [proccesing_func].
    - Exceptions are values of [exn]; the generator is driven with fuel,
      because the [while] loop only ends when the processing object
      reports a large enough position.
    - The timing statistics ([time_stats]) only print; they are left out.
    - A Python [float] is an IEEE 754 binary64 number, with the operations
      of [SpecFloat]; the sample rate handed to the processing class is
      kept as the rational it stands for.
    - The sound files live in a file system in which several paths can
      lead to one file, and in which the [soundfile] library can refuse
      to open a path for writing. *)

From Stdlib Require Import ZArith QArith Qminmax Lia.
From Stdlib Require Import Floats.SpecFloat.
From stdpp Require Import base gmap strings list.

Local Open Scope Z_scope.

(** ** Exceptions and results *)

Inductive exn :=
| AssertionError (msg : option string)
| KeyError (key : string)
| ValueError
| AttributeError
| IndexError
| ZeroDivisionError
| OverflowError
| TypeError
| RuntimeError.

Inductive result (A : Type) :=
| Ok (a : A)
| Raise (e : exn).
Arguments Ok {A} a.
Arguments Raise {A} e.

(** Sequencing of fallible steps: [x ← r; k] stops at the first exception. *)
#[global] Instance result_bind : MBind result := λ A B f r,
  match r with
  | Ok a => f a
  | Raise e => Raise e
  end.

(** ** Python numbers

    The helper computes with floats in one place, the test of the
    duration limit. *)

Definition float : Type := spec_float.

(** binary64: 53 bits of mantissa, exponents below 1024. *)
Definition prec : Z := 53.
Definition emax : Z := 1024.

(** The float nearest to an integer, ties to even: [float(n)] for an
    integer within the range of the floats, as the sample rate of a sound
    file (a C [int] of the library) is. *)
Definition float_of_Z (z : Z) : float := binary_normalize prec emax z 0 false.

(** The conversion of any Python integer to a float, as the operand of a
    float operation: integers beyond the floats are refused. *)
Definition float_of_int (z : Z) : result float :=
  match float_of_Z z with
  | S754_infinity _ => Raise OverflowError
  | f => Ok f
  end.

(** [x / y] on floats *)
Definition float_truediv (x y : float) : result float :=
  match y with
  | S754_zero _ => Raise ZeroDivisionError
  | _ => Ok (SFdiv prec emax x y)
  end.

(** The rational a float stands for (zero for what is not finite). *)
Definition float_value (f : float) : Q :=
  match f with
  | S754_finite s m e => Qred (inject_Z (cond_Zopp s (Z.pos m)) * 2 ^ e)
  | _ => 0
  end.

(** A number as a caller writes it: [2] or [2.0]. *)
Inductive number :=
| Int (z : Z)
| Float (f : float).

(** [x >= y] for a float [x]: the comparison of IEEE 754 with a float,
    the comparison of the exact values with an integer. *)
Definition float_ge (x : float) (y : number) : bool :=
  match y with
  | Float f => SFleb f x
  | Int z =>
      match x with
      | S754_nan => false
      | S754_infinity s => negb s
      | S754_zero _ => z <=? 0
      | S754_finite s m e =>
          let v := cond_Zopp s (Z.pos m) in
          if 0 <=? e then z <=? v * 2 ^ e else z * 2 ^ (- e) <=? v
      end
  end.

(** ** dtypes *)

Inductive dtype := float32 | float64 | int16 | int32.

#[global] Instance dtype_eq_dec : EqDecision dtype.
Proof. solve_decision. Defined.

(** ** Resolution of a Python slice [start:stop] on an axis of length [n] *)

Definition slice_bound (n i : Z) : Z :=
  if i <? 0 then Z.max (i + n) 0 else Z.min i n.

(** First row and number of rows selected by [start:stop]. *)
Definition slice_range (n start stop : Z) : Z * Z :=
  let lo := slice_bound n start in
  let hi := slice_bound n stop in
  (lo, Z.max (hi - lo) 0).

Definition slice_start (n start stop : Z) : Z := fst (slice_range n start stop).
Definition slice_len (n start stop : Z) : Z := snd (slice_range n start stop).

Section Helper.

(** Samples, the zero sample written by [np.zeros], and the conversion of a
    sample to a dtype (what [astype] and an assignment between arrays of
    different dtypes do). *)
Variable sample : Type.
Variable zero : sample.
Variable cast : dtype → sample → sample.

Record ndarray := mk_ndarray {
  arr_dtype : dtype;
  arr_ncols : nat;
  arr_rows : list (list sample)
}.

(** [a.shape[0]] and [a.shape[1]] *)
Definition shape0 (a : ndarray) : nat := length (arr_rows a).
Definition shape1 (a : ndarray) : nat := arr_ncols a.

(** [np.zeros((n, c), dtype=d)] *)
Definition np_zeros (n c : nat) (d : dtype) : ndarray :=
  mk_ndarray d c (replicate n (replicate c zero)).

(** [np.zeros((n, c), dtype=d)] with a Python integer [n]: negative
    dimensions are refused. *)
Definition np_zeros_Z (n : Z) (c : nat) (d : dtype) : result ndarray :=
  if n <? 0 then Raise ValueError else Ok (np_zeros (Z.to_nat n) c d).

(** [a.astype(d)] *)
Definition astype (d : dtype) (a : ndarray) : ndarray :=
  mk_ndarray d (arr_ncols a) (map (map (cast d)) (arr_rows a)).

(** [a[start:stop, :]] *)
Definition getitem_rows (a : ndarray) (start stop : Z) : ndarray :=
  let '(lo, len) := slice_range (Z.of_nat (shape0 a)) start stop in
  mk_ndarray (arr_dtype a) (arr_ncols a)
    (take (Z.to_nat len) (drop (Z.to_nat lo) (arr_rows a))).

(** A sample of dtype [from] stored into an array of dtype [to]: copied
    as it is when the dtypes agree, converted otherwise. *)
Definition convert (from to : dtype) (x : sample) : sample :=
  if decide (from = to) then x else cast to x.

(** The rows an assignment [a[lo:lo+len, :] = v] stores, by numpy's
    broadcasting: the row count of [v] must be [len] or one, its column
    count must be the target's or one. *)
Definition broadcast_cols (c : nat) (from to : dtype) (v : ndarray)
    : result (list (list sample)) :=
  if decide (arr_ncols v = c) then
    Ok (map (map (convert from to)) (arr_rows v))
  else if decide (arr_ncols v = 1%nat) then
    Ok (map (fun r => replicate c (convert from to (hd zero r))) (arr_rows v))
  else Raise ValueError.

Definition broadcast_rows (len : nat) (rows : list (list sample))
    : result (list (list sample)) :=
  if decide (length rows = len) then Ok rows
  else match rows with
       | [r] => Ok (replicate len r)
       | _ => Raise ValueError
       end.

(** [a[start:stop, :] = v] *)
Definition setitem_rows (a : ndarray) (start stop : Z) (v : ndarray)
    : result ndarray :=
  let '(lo, len) := slice_range (Z.of_nat (shape0 a)) start stop in
  cols ← broadcast_cols (arr_ncols a) (arr_dtype v) (arr_dtype a) v;
  rows ← broadcast_rows (Z.to_nat len) cols;
  Ok (mk_ndarray (arr_dtype a) (arr_ncols a)
        (take (Z.to_nat lo) (arr_rows a) ++ rows ++
         drop (Z.to_nat lo + Z.to_nat len) (arr_rows a))).

(** ** Processing results

    What [proccesing_func] returns: a dict from stream name to a pair
    [(pos, out_chunk)], each of which may be [None].  The dict is kept as
    the list of its items, in iteration order. *)

Definition stream_result : Type := option Z * option ndarray.
Definition returns : Type := list (string * stream_result).

(** [returns[k]] *)
Fixpoint returns_lookup (k : string) (r : returns) : result stream_result :=
  match r with
  | [] => Raise (KeyError k)
  | (k', v) :: r' => if decide (k' = k) then Ok v else returns_lookup k r'
  end.

(** ** The processing class

    [ProcessingClass(nb_channel=, sample_rate=, dtype=, **processing_conf)]
    builds the object; [proccesing_func(index, in_chunk)] mutates it and
    returns the results of one chunk. *)

Record ProcessingClass (conf : Type) := {
  proc_state : Type;
  proc_init : nat → Q → dtype → conf → proc_state;
  proccesing_func : proc_state → Z → ndarray → proc_state * returns
}.
Arguments proc_state {conf} _.
Arguments proc_init {conf} _ _ _ _ _.
Arguments proccesing_func {conf} _ _ _ _.

(** ** Input buffers

    [make_processing_loop] only uses [in_buffer.shape] and
    [in_buffer[a:b, :]], so that a numpy array and a [WaveNumpy] both
    serve. *)

Class BufferLike (B : Type) := {
  buf_shape0 : B → nat;
  buf_shape1 : B → nat;
  buf_getitem : B → Z → Z → result ndarray
}.

#[global] Instance ndarray_buffer : BufferLike ndarray := {
  buf_shape0 := shape0;
  buf_shape1 := shape1;
  buf_getitem a start stop := Ok (getitem_rows a start stop)
}.

(** A sound file as the [soundfile] library presents it: channel count,
    sample rate and frames (one row of samples per frame). *)
Record SoundFile := mk_SoundFile {
  channels : nat;
  samplerate : Z;
  frames : list (list sample)
}.

(** [file.seek(start)] followed by
    [file.read(frames=n, dtype='float32', always_2d=True)]: seeking outside
    the file fails; a negative or too large [n] reads what is left. *)
Definition seek_read (f : SoundFile) (start n : Z) : result ndarray :=
  let len := Z.of_nat (length (frames f)) in
  if (start <? 0) || (len <? start) then Raise RuntimeError
  else
    let remaining := len - start in
    let n' := if (n <? 0) || (remaining <? n) then remaining else n in
    Ok (mk_ndarray float32 (channels f)
          (take (Z.to_nat n') (drop (Z.to_nat start) (frames f)))).

(** [class WaveNumpy]: [self.file] and [self.shape] *)
Record WaveNumpy := mk_WaveNumpy {
  wn_file : SoundFile;
  wn_shape : nat * nat
}.

(** [WaveNumpy.__init__] on an opened file *)
Definition WaveNumpy_init (f : SoundFile) : WaveNumpy :=
  mk_WaveNumpy f (length (frames f), channels f).

(** [WaveNumpy.__getitem__((slice(start, stop), slice(None)))] *)
Definition WaveNumpy_getitem (w : WaveNumpy) (start stop : Z) : result ndarray :=
  seek_read (wn_file w) start (stop - start).

#[global] Instance WaveNumpy_buffer : BufferLike WaveNumpy := {
  buf_shape0 w := fst (wn_shape w);
  buf_shape1 w := snd (wn_shape w);
  buf_getitem := WaveNumpy_getitem
}.

(** ** The generator [loop] of [make_processing_loop] *)

Section Scheduler.

Context {conf : Type} (P : ProcessingClass conf).
Context {B : Type} `{BufferLike B}.
Variable in_buffer : B.
Variable chunksize : Z.
Variable dtype_ : dtype.

(** [buffer_size = in_buffer.shape[0]] *)
Definition buffer_size : Z := Z.of_nat (buf_shape0 in_buffer).

(** The local variables of [loop] that live across iterations, and the
    processing object it closes over. *)
Record loop_state := mk_loop_state {
  index : Z;
  out_index : option Z;
  processing : proc_state P
}.

(** What one iteration did: the arguments of the call of
    [proccesing_func] and the dict it returned (the value yielded). *)
Record iteration := mk_iteration {
  it_index : Z;
  it_chunk : ndarray;
  it_returns : returns
}.

(** [while out_index is None or out_index<buffer_size] *)
Definition loop_cond (s : loop_state) : bool :=
  match out_index s with
  | None => true
  | Some p => p <? buffer_size
  end.

(** The chunk read for the already advanced [index]:
    [in_buffer[index-chunksize:index, :]] while [index<=buffer_size],
    [np.zeros((chunksize, in_buffer.shape[1]), dtype=dtype)] after. *)
Definition in_chunk_at (index : Z) : result ndarray :=
  if index <=? buffer_size then
    buf_getitem in_buffer (index - chunksize) index
  else
    np_zeros_Z chunksize (buf_shape1 in_buffer) dtype_.

(** One pass through the body of the [while], up to the [yield]. *)
Definition loop_body (s : loop_state) : result (iteration * loop_state) :=
  let index' := index s + chunksize in
  in_chunk ← in_chunk_at index';
  let '(processing', ret) := proccesing_func P (processing s) index' in_chunk in
  '(out_index', _) ← returns_lookup "main_output" ret;
  Ok (mk_iteration index' in_chunk ret,
      mk_loop_state index' out_index' processing').

(** How the consumer's [for] body leaves an iteration. *)
Inductive control :=
| Next
| Break
| Fail (e : exn).

(** How a run of [for returns in loop(): ...] ended. *)
Inductive stop :=
| Exhausted
| Broke
| Failed (e : exn)
| OutOfFuel.

(** A run: the iterations whose result was yielded, the state of the
    generator and of the consumer at the end, and how it ended. *)
Record run (A : Type) := mk_run {
  run_trace : list iteration;
  run_state : loop_state;
  run_acc : A;
  run_stop : stop
}.
Arguments mk_run {A} _ _ _ _.
Arguments run_trace {A} _.
Arguments run_state {A} _.
Arguments run_acc {A} _.
Arguments run_stop {A} _.

Definition run_cons {A} (it : iteration) (r : run A) : run A :=
  mk_run (it :: run_trace r) (run_state r) (run_acc r) (run_stop r).

(** [for returns in <generator in state s>: acc = consume(acc, returns)],
    at most [fuel] evaluations of the [while] condition. *)
Fixpoint for_loop {A} (consume : A → returns → A * control)
    (fuel : nat) (s : loop_state) (acc : A) : run A :=
  match fuel with
  | O => mk_run [] s acc OutOfFuel
  | S fuel' =>
      if loop_cond s then
        match loop_body s with
        | Raise e => mk_run [] s acc (Failed e)
        | Ok (it, s') =>
            let '(acc', c) := consume acc (it_returns it) in
            match c with
            | Next => run_cons it (for_loop consume fuel' s' acc')
            | Break => mk_run [it] s' acc' Broke
            | Fail e => mk_run [it] s' acc' (Failed e)
            end
        end
      else mk_run [] s acc Exhausted
  end.

(** [for returns in loop(): ...] from the start of the generator.  Its
    first statement that can fail is [nloop = buffer_size//chunksize]. *)
Definition loop {A} (processing0 : proc_state P)
    (consume : A → returns → A * control) (fuel : nat) (acc : A) : run A :=
  let s0 := mk_loop_state 0 None processing0 in
  if chunksize =? 0 then mk_run [] s0 acc (Failed ZeroDivisionError)
  else for_loop consume fuel s0 acc.

(** [make_processing_loop]: the processing object and the generator
    function.  [buffer_size2] is computed as in the source. *)
Definition make_processing_loop (sample_rate : Q) (processing_conf : conf)
    (buffersize_margin : Z)
    : proc_state P *
      (∀ A, (A → returns → A * control) → nat → A → run A) :=
  let nb_channel := buf_shape1 in_buffer in
  let buffer_size2 := Z.of_nat (buf_shape0 in_buffer) + buffersize_margin in
  let processing0 := proc_init P nb_channel sample_rate dtype_ processing_conf in
  (processing0, fun A => @loop A processing0).

(** ** [run_one_class_offline] *)

(** [if k not in online_arrs and pos is not None:
       online_arrs[k] = np.zeros((buffer_size, out_chunk.shape[1]), dtype=dtype)] *)
Definition allocate (online_arrs : gmap string ndarray) (k : string)
    (v : stream_result) : result (gmap string ndarray) :=
  match online_arrs !! k, v.1 with
  | None, Some _ =>
      match v.2 with
      | None => Raise AttributeError
      | Some out_chunk =>
          Ok (<[k := np_zeros (buf_shape0 in_buffer) (shape1 out_chunk) dtype_]>
                online_arrs)
      end
  | _, _ => Ok online_arrs
  end.

(** The test of line 81:
    [online_arrs[k][pos-out_chunk.shape[0]:pos, :].shape[0]==out_chunk.shape[0]] *)
Definition fits (a : ndarray) (pos : Z) (out_chunk : ndarray) : bool :=
  bool_decide
    (shape0 (getitem_rows a (pos - Z.of_nat (shape0 out_chunk)) pos)
     = shape0 out_chunk).

(** [if pos is not None:
       if <fits>: online_arrs[k][pos-out_chunk.shape[0]:pos, :] = out_chunk] *)
Definition place (online_arrs : gmap string ndarray) (k : string)
    (v : stream_result) : result (gmap string ndarray) :=
  match v.1 with
  | None => Ok online_arrs
  | Some pos =>
      match online_arrs !! k with
      | None => Raise (KeyError k)
      | Some a =>
          match v.2 with
          | None => Raise AttributeError
          | Some out_chunk =>
              if fits a pos out_chunk then
                a' ← setitem_rows a (pos - Z.of_nat (shape0 out_chunk)) pos
                       out_chunk;
                Ok (<[k := a']> online_arrs)
              else Ok online_arrs
          end
      end
  end.

(** The body of [for k, (pos, out_chunk) in returns.items()] *)
Definition store (online_arrs : gmap string ndarray)
    (kv : string * stream_result) : result (gmap string ndarray) :=
  online_arrs' ← allocate online_arrs kv.1 kv.2;
  place online_arrs' kv.1 kv.2.

(** [for k, (pos, out_chunk) in returns.items(): ...] *)
Fixpoint store_all (ret : returns) (online_arrs : gmap string ndarray)
    : result (gmap string ndarray) :=
  match ret with
  | [] => Ok online_arrs
  | kv :: ret' =>
      online_arrs' ← store online_arrs kv;
      store_all ret' online_arrs'
  end.

(** The body of [for returns in loop()] as a consumer of the generator.
    An exception leaves [run_one_class_offline] without a result, so the
    dict as it stood before the failing item list is kept. *)
Definition offline_consume (online_arrs : gmap string ndarray) (ret : returns)
    : gmap string ndarray * control :=
  match store_all ret online_arrs with
  | Ok online_arrs' => (online_arrs', Next)
  | Raise e => (online_arrs, Fail e)
  end.

(** [run_one_class_offline].  When the run ends [Exhausted] the Python
    function returns [(processing (run_state r), run_acc r)]; [Failed e]
    is the exception [e] leaving the function. *)
Definition run_one_class_offline (sample_rate : Q) (processing_conf : conf)
    (buffersize_margin : Z) (fuel : nat) : run (gmap string ndarray) :=
  let '(_, loop_) :=
    make_processing_loop sample_rate processing_conf buffersize_margin in
  loop_ _ offline_consume fuel ∅.

End Scheduler.

Arguments index {conf P} _.
Arguments out_index {conf P} _.
Arguments processing {conf P} _.
Arguments mk_run {conf P A} _ _ _ _.
Arguments run_trace {conf P A} _.
Arguments run_state {conf P A} _.
Arguments run_acc {conf P A} _.
Arguments run_stop {conf P A} _.

(** ** The public entry points

    Both run the class [InvCGC], which lives in another module of the
    package and is a parameter here.  [params] is the keyword dict: the
    two keys the helper reads itself, the per-channel [loss_params] dict
    and whatever else the class takes. *)

Section EntryPoints.

Variable loss : Type.
Variable extra : Type.

Record params := mk_params {
  chunksize_ : Z;
  backward_chunksize : Z;
  loss_params : gmap string loss;
  other_params : extra
}.

Variable InvCGC : ProcessingClass params.

(** A numpy array as [compute_numpy] takes and returns it: of rank one
    (the docstring's mono sound) or of rank two. *)
Inductive nparray :=
| Rank1 (d : dtype) (xs : list sample)
| Rank2 (a : ndarray).

(** [sound[:, None]] *)
Definition add_axis (d : dtype) (xs : list sample) : ndarray :=
  mk_ndarray d 1 (map (fun x => [x]) xs).

(** [out_sound[:, 0]] *)
Definition column0 (a : ndarray) : result nparray :=
  if decide (arr_ncols a = O) then Raise IndexError
  else Ok (Rank1 (arr_dtype a) (map (hd zero) (arr_rows a))).

(** [compute_numpy]; [None] when the fuel does not reach the end of the
    loop. *)
Definition compute_numpy (sound : nparray) (sample_rate : Q) (p : params)
    (fuel : nat) : option (result nparray) :=
  let '(sound2, onedim) :=
    match sound with
    | Rank1 d xs => (add_axis d xs, true)
    | Rank2 a => (a, false)
    end in
  let sound3 := astype float32 sound2 in
  let chunksize := chunksize_ p in
  let backward_chunksize := backward_chunksize p in
  let r := run_one_class_offline InvCGC sound3 chunksize float32 sample_rate p
             backward_chunksize fuel in
  match run_stop r with
  | OutOfFuel => None
  | Failed e => Some (Raise e)
  | Broke | Exhausted =>
      match run_acc r !! "main_output" with
      | None => Some (Raise (KeyError "main_output"))
      | Some out_sound =>
          if onedim then Some (column0 out_sound)
          else Some (Ok (Rank2 out_sound))
      end
  end.

(** *** Sound files on disk

    A path leads to a file, which exists or not; two paths can lead to
    the same file ([in.wav] and [./in.wav], a link).  Whether the library
    opens a path for writing depends on the path and on the header asked
    for: the directory must exist, the extension must name a format, the
    format must have the subtype FLOAT. *)
Record FileSystem := mk_FileSystem {
  fs_path : string → positive;
  fs_files : gmap positive SoundFile;
  fs_refuses : string → nat → Z → option exn
}.

(** The file system with the file [i] replaced by [f]. *)
Definition set_file (fs : FileSystem) (i : positive) (f : SoundFile)
    : FileSystem :=
  mk_FileSystem (fs_path fs) (<[i := f]> (fs_files fs)) (fs_refuses fs).

(** The file a path leads to, if it exists. *)
Definition file_at (fs : FileSystem) (name : string) : option SoundFile :=
  fs_files fs !! fs_path fs name.

(** [soundfile.SoundFile(name, 'r')] *)
Definition open_read (fs : FileSystem) (name : string) : result SoundFile :=
  match file_at fs name with
  | Some f => Ok f
  | None => Raise RuntimeError
  end.

(** [soundfile.SoundFile(name, 'w', channels=c, samplerate=sr,
    subtype='FLOAT')]: unless the library refuses, the file the path
    leads to is created, or emptied if it exists. *)
Definition open_write (fs : FileSystem) (name : string) (c : nat) (sr : Z)
    : result FileSystem :=
  match fs_refuses fs name c sr with
  | Some e => Raise e
  | None => Ok (set_file fs (fs_path fs name) (mk_SoundFile c sr []))
  end.

(** [out_wav.write(data)]: the frames are appended, as 32-bit floats. *)
Definition sf_write (f : SoundFile) (data : ndarray) : result SoundFile :=
  if decide (arr_ncols data = channels f) then
    Ok (mk_SoundFile (channels f) (samplerate f)
          (frames f ++ map (map (convert (arr_dtype data) float32))
                          (arr_rows data)))
  else Raise ValueError.

(** [duration_limit is not None and out_index is not None and
     out_index/sample_rate>=duration_limit]: the integer [out_index] is
    converted to a float, the quotient is the float quotient. *)
Definition limit_reached (duration_limit : option number)
    (out_index : option Z) (sample_rate : float) : result bool :=
  match duration_limit, out_index with
  | Some lim, Some p =>
      x ← float_of_int p;
      seconds ← float_truediv x sample_rate;
      Ok (float_ge seconds lim)
  | _, _ => Ok false
  end.

(** The body of [for i, returns in enumerate(loop())] of
    [compute_wave_file]; the consumer's state is the output file. *)
Definition wave_consume (duration_limit : option number) (sample_rate : float)
    (out_wav : SoundFile) (ret : returns) : SoundFile * control :=
  match returns_lookup "main_output" ret with
  | Raise e => (out_wav, Fail e)
  | Ok (out_index, processed_data) =>
      match
        (match processed_data with
         | Some d => sf_write out_wav d
         | None => Ok out_wav
         end)
      with
      | Raise e => (out_wav, Fail e)
      | Ok out_wav' =>
          match limit_reached duration_limit out_index sample_rate with
          | Raise e => (out_wav', Fail e)
          | Ok true => (out_wav', Break)
          | Ok false => (out_wav', Next)
          end
      end
  end.

(** [if len(params['loss_params'])<nb_channel:
       params['loss_params']['right'] = dict(params['loss_params']['left'])] *)
Definition fill_loss_params (p : params) (nb_channel : nat) : result params :=
  if decide (size (loss_params p) < nb_channel)%nat then
    match loss_params p !! "left" with
    | None => Raise (KeyError "left")
    | Some l =>
        Ok (mk_params (chunksize_ p) (backward_chunksize p)
              (<["right" := l]> (loss_params p)) (other_params p))
    end
  else Ok p.

(** What a call of [compute_wave_file] leaves: the files, the run of the
    scheduler loop if it was reached, and how the call ended
    ([Exhausted] or [Broke]: it returned). *)
Record wave_outcome := mk_wave_outcome {
  wo_files : FileSystem;
  wo_run : option (run InvCGC SoundFile);
  wo_stop : stop
}.

(** A call of [compute_wave_file] ends with an outcome, unless its loop
    is reached with the input file emptied: the assertion of line 161
    compares the two names, so that another path to the input file
    passes it, and line 164 then empties the file the [WaveNumpy] reads.
    What the loop reads from then on is a matter of the operating system;
    the call is followed up to there, with the files as line 164 left
    them. *)
Inductive wave_call :=
| Ended (o : wave_outcome)
| InputEmptied (fs : FileSystem).

Definition compute_wave_file (HAS_SOUNDFILE : bool)
    (in_filename out_filename : string) (duration_limit : option number)
    (p : params) (fs : FileSystem) (fuel : nat) : wave_call :=
  if negb HAS_SOUNDFILE then
    Ended (mk_wave_outcome fs None
             (Failed (AssertionError (Some "soundfile need to be installed"))))
  else if decide (in_filename = out_filename) then
    Ended (mk_wave_outcome fs None (Failed (AssertionError None)))
  else
    match open_read fs in_filename with
    | Raise e => Ended (mk_wave_outcome fs None (Failed e))
    | Ok in_wav =>
        let in_buffer := WaveNumpy_init in_wav in
        match
          open_write fs out_filename (channels in_wav) (samplerate in_wav)
        with
        | Raise e => Ended (mk_wave_outcome fs None (Failed e))
        | Ok fs1 =>
            let out_wav :=
              mk_SoundFile (channels in_wav) (samplerate in_wav) [] in
            let sample_rate := float_of_Z (samplerate in_wav) in
            let nb_channel := channels in_wav in
            let chunksize := chunksize_ p in
            let backward_chunksize := backward_chunksize p in
            match fill_loss_params p nb_channel with
            | Raise e => Ended (mk_wave_outcome fs1 None (Failed e))
            | Ok p' =>
                if decide (fs_path fs in_filename = fs_path fs out_filename)
                then InputEmptied fs1
                else
                  let '(_, loop_) :=
                    make_processing_loop InvCGC in_buffer chunksize float32
                      (float_value sample_rate) p' 0 in
                  let r :=
                    loop_ _ (wave_consume duration_limit sample_rate) fuel
                      out_wav in
                  Ended (mk_wave_outcome
                           (set_file fs1 (fs_path fs out_filename) (run_acc r))
                           (Some r) (run_stop r))
            end
        end
    end.

End EntryPoints.

(** ** Reading a run *)

(** The position a result dict reports for the main output stream. *)
Definition main_pos (ret : returns) : option Z :=
  match returns_lookup "main_output" ret with
  | Ok (pos, _) => pos
  | Raise _ => None
  end.

(** The chunk a result dict carries for the main output stream. *)
Definition main_data (ret : returns) : option ndarray :=
  match returns_lookup "main_output" ret with
  | Ok (_, data) => data
  | Raise _ => None
  end.

(** The reported position is there and not below [n]. *)
Definition reached (n : Z) (pos : option Z) : bool :=
  match pos with
  | Some p => n <=? p
  | None => false
  end.

(** The last iteration of a trace reported a position at or beyond [n]. *)
Definition last_reached (n : Z) (trace : list iteration) : bool :=
  match last trace with
  | Some it => reached n (main_pos (it_returns it))
  | None => false
  end.

(** All the [(k, (pos, out_chunk))] items of a trace, in the order the
    reassembler meets them. *)
Definition items (trace : list iteration) : returns :=
  flat_map it_returns trace.

(** The chunk of the first item of stream [k] whose position is not
    [None]. *)
Fixpoint first_chunk (k : string) (kvs : returns) : option (option ndarray) :=
  match kvs with
  | [] => None
  | (k', (pos, out_chunk)) :: kvs' =>
      if decide (k' = k) then
        match pos with
        | Some _ => Some out_chunk
        | None => first_chunk k kvs'
        end
      else first_chunk k kvs'
  end.

(** The destination buffer of stream [k] as a chunk [out_chunk] with a
    position finds it: the one in [online_arrs], or else the fresh one
    line 77 makes. *)
Definition destination {B} `{BufferLike B} (in_buffer : B) (dtype_ : dtype)
    (online_arrs : gmap string ndarray) (k : string) (out_chunk : ndarray)
    : ndarray :=
  default (np_zeros (buf_shape0 in_buffer) (shape1 out_chunk) dtype_)
    (online_arrs !! k).

(** An input buffer answers every range [0 <= start <= stop <= shape[0]]
    with exactly [stop - start] rows of its own channel count. *)
Definition lawful {B} `{BufferLike B} (b : B) : Prop :=
  ∀ start stop : Z,
    0 ≤ start → start ≤ stop → stop ≤ Z.of_nat (buf_shape0 b) →
    ∃ c, buf_getitem b start stop = Ok c
         ∧ Z.of_nat (shape0 c) = stop - start
         ∧ shape1 c = buf_shape1 b.

(** The main output of a trace is a gapless stream: a result either
    carries neither position nor data, or carries at most [chunksize]
    rows and the position reached once they are appended to the
    [written] frames before them. *)
Fixpoint gapless (chunksize written : Z) (trace : list iteration) : bool :=
  match trace with
  | [] => true
  | it :: trace' =>
      match main_pos (it_returns it), main_data (it_returns it) with
      | None, None => gapless chunksize written trace'
      | Some p, Some d =>
          (p =? written + Z.of_nat (shape0 d))
          && (Z.of_nat (shape0 d) <=? chunksize)
          && gapless chunksize p trace'
      | _, _ => false
      end
  end.

(** The frames [compute_wave_file] writes for one iteration, and for a
    trace. *)
Definition written_rows (it : iteration) : list (list sample) :=
  match main_data (it_returns it) with
  | Some data => map (map (convert (arr_dtype data) float32)) (arr_rows data)
  | None => []
  end.

Definition written (trace : list iteration) : list (list sample) :=
  flat_map written_rows trace.

(** ** Two processing classes for the scenarios *)

(** No delay: every call hands its input chunk back at the end index. *)
Definition passthrough (conf : Type) : ProcessingClass conf := {|
  proc_state := unit;
  proc_init := fun _ _ _ _ => tt;
  proccesing_func := fun st index in_chunk =>
    (st, [("main_output", (Some index, Some in_chunk))])
|}.

(** One call of warm-up: the first call reports nothing, the later ones
    behave as [passthrough].  The state counts the calls. *)
Definition warmup (conf : Type) : ProcessingClass conf := {|
  proc_state := nat;
  proc_init := fun _ _ _ _ => O;
  proccesing_func := fun calls index in_chunk =>
    (S calls,
     match calls with
     | O => [("main_output", (None, None))]
     | S _ => [("main_output", (Some index, Some in_chunk))]
     end)
|}.

(** * Properties *)

(** ** Slices *)

Ltac slice_arith :=
  unfold slice_start, slice_len, slice_range, slice_bound in *; simpl in *;
  repeat match goal with
         | |- context [?x <? ?y] => destruct (Z.ltb_spec x y)
         | H : context [?x <? ?y] |- _ => destruct (Z.ltb_spec x y)
         end;
  lia.

Lemma slice_start_nonneg (n start stop : Z) :
  0 ≤ n → 0 ≤ slice_start n start stop.
Proof. intros; slice_arith. Qed.

Lemma slice_len_nonneg (n start stop : Z) : 0 ≤ slice_len n start stop.
Proof. slice_arith. Qed.

Lemma slice_inside (n start stop : Z) :
  0 ≤ n → slice_start n start stop + slice_len n start stop ≤ n.
Proof. intros; slice_arith. Qed.

(** A slice that ends at a non-negative [pos] and is to hold [len > 0]
    rows holds them exactly when it lies inside the axis. *)
Lemma slice_len_exact (n pos len : Z) :
  0 ≤ n → 0 ≤ pos → 0 < len →
  slice_len n (pos - len) pos = len ↔ 0 ≤ pos - len ∧ pos ≤ n.
Proof. intros; split; intros; slice_arith. Qed.

Lemma slice_start_exact (n pos len : Z) :
  0 ≤ len → 0 ≤ pos - len → pos ≤ n → slice_start n (pos - len) pos = pos - len.
Proof. intros; slice_arith. Qed.

Lemma slice_len_full (n pos len : Z) :
  0 ≤ len → 0 ≤ pos - len → pos ≤ n → slice_len n (pos - len) pos = len.
Proof. intros; slice_arith. Qed.

Lemma getitem_rows_rows (a : ndarray) (start stop : Z) :
  arr_rows (getitem_rows a start stop)
  = take (Z.to_nat (slice_len (Z.of_nat (shape0 a)) start stop))
      (drop (Z.to_nat (slice_start (Z.of_nat (shape0 a)) start stop))
         (arr_rows a)).
Proof.
  unfold getitem_rows, slice_start, slice_len.
  destruct (slice_range _ _ _); reflexivity.
Qed.

Lemma shape0_getitem_rows (a : ndarray) (start stop : Z) :
  Z.of_nat (shape0 (getitem_rows a start stop))
  = slice_len (Z.of_nat (shape0 a)) start stop.
Proof.
  unfold shape0 at 1. rewrite getitem_rows_rows, length_take, length_drop.
  pose proof (slice_start_nonneg (Z.of_nat (shape0 a)) start stop).
  pose proof (slice_len_nonneg (Z.of_nat (shape0 a)) start stop).
  pose proof (slice_inside (Z.of_nat (shape0 a)) start stop).
  unfold shape0 in *. lia.
Qed.

Lemma fits_iff (a : ndarray) (pos : Z) (c : ndarray) :
  fits a pos c = true
  ↔ slice_len (Z.of_nat (shape0 a)) (pos - Z.of_nat (shape0 c)) pos
    = Z.of_nat (shape0 c).
Proof.
  unfold fits. rewrite bool_decide_eq_true, <- shape0_getitem_rows. lia.
Qed.

(** ** Assignment to a row slice *)

(** Replacing the [length rows] elements of [l] from [lo] on. *)
Lemma splice_length {A} (l rows : list A) (lo : nat) :
  (lo + length rows ≤ length l)%nat →
  length (take lo l ++ rows ++ drop (lo + length rows) l) = length l.
Proof.
  intros Hle. rewrite !length_app, length_take, length_drop. lia.
Qed.

Lemma splice_lookup {A} (l rows : list A) (lo i : nat) :
  (lo + length rows ≤ length l)%nat →
  (take lo l ++ rows ++ drop (lo + length rows) l) !! i
  = if decide (lo ≤ i < lo + length rows)%nat then rows !! (i - lo)%nat
    else l !! i.
Proof.
  intros Hle.
  assert (Hlo : length (take lo l) = lo) by (rewrite length_take; lia).
  destruct (decide (i < lo)%nat) as [Hi|Hi].
  - rewrite lookup_app_l by lia. rewrite lookup_take_lt by lia.
    case_decide; [lia | reflexivity].
  - rewrite lookup_app_r by lia. rewrite Hlo.
    destruct (decide (i - lo < length rows)%nat) as [Hr|Hr].
    + rewrite lookup_app_l by lia. case_decide; [reflexivity | lia].
    + rewrite lookup_app_r by lia. rewrite lookup_drop.
      case_decide; [lia |]. f_equal. lia.
Qed.

Lemma broadcast_cols_length (c : nat) (from to : dtype) (v : ndarray)
    (rows : list (list sample)) :
  broadcast_cols c from to v = Ok rows → length rows = shape0 v.
Proof.
  unfold broadcast_cols, shape0. repeat case_decide; intros Heq;
    inversion Heq; subst; by rewrite length_map.
Qed.

(** Under the test of line 81 the assignment stores one row per row of
    the chunk, from the resolved start of the slice on; it can only fail
    on the channel counts. *)
Lemma setitem_rows_fits (a : ndarray) (pos : Z) (c : ndarray) :
  fits a pos c = true →
  let start := pos - Z.of_nat (shape0 c) in
  let lo := Z.to_nat (slice_start (Z.of_nat (shape0 a)) start pos) in
  match broadcast_cols (arr_ncols a) (arr_dtype c) (arr_dtype a) c with
  | Ok rows =>
      setitem_rows a start pos c
      = Ok (mk_ndarray (arr_dtype a) (arr_ncols a)
              (take lo (arr_rows a) ++ rows ++
               drop (lo + length rows) (arr_rows a)))
      ∧ length rows = shape0 c
      ∧ (lo + length rows ≤ shape0 a)%nat
  | Raise e => setitem_rows a start pos c = Raise e
  end.
Proof.
  intros Hfits start lo. apply fits_iff in Hfits. fold start in Hfits.
  unfold setitem_rows. subst lo. unfold slice_start, slice_len in *.
  pose proof (slice_inside (Z.of_nat (shape0 a)) start pos) as Hin.
  pose proof (slice_start_nonneg (Z.of_nat (shape0 a)) start pos) as Hnn.
  unfold slice_start, slice_len in *.
  destruct (slice_range _ _ _) as [lo len]; simpl in *. subst len.
  destruct (broadcast_cols _ _ _ _) as [rows|e] eqn:Hb; simpl; [|reflexivity].
  apply broadcast_cols_length in Hb.
  unfold broadcast_rows. rewrite Nat2Z.id, Hb.
  rewrite decide_True by reflexivity. simpl.
  split; [reflexivity | split; [reflexivity | lia]].
Qed.

(** ** Input buffers *)

Lemma shape0_np_zeros (rows cols : nat) (d : dtype) :
  shape0 (np_zeros rows cols d) = rows.
Proof. unfold shape0; simpl. apply length_replicate. Qed.

(** A slice inside the array is the run of rows it names. *)
Lemma getitem_rows_inside (a : ndarray) (start stop : Z) :
  0 ≤ start → start ≤ stop → stop ≤ Z.of_nat (shape0 a) →
  getitem_rows a start stop
  = mk_ndarray (arr_dtype a) (arr_ncols a)
      (take (Z.to_nat (stop - start)) (drop (Z.to_nat start) (arr_rows a))).
Proof.
  intros H0 H1 H2. unfold getitem_rows.
  assert (Hr : slice_range (Z.of_nat (shape0 a)) start stop
               = (start, stop - start)).
  { unfold slice_range, slice_bound.
    destruct (Z.ltb_spec start 0), (Z.ltb_spec stop 0); try lia.
    f_equal; lia. }
  by rewrite Hr.
Qed.


Lemma WaveNumpy_lawful (f : SoundFile) : lawful (WaveNumpy_init f).
Proof.
  intros start stop H0 H1 H2. simpl in *.
  unfold WaveNumpy_getitem, seek_read; simpl.
  destruct (Z.ltb_spec start 0); [lia|].
  destruct (Z.ltb_spec (Z.of_nat (length (frames f))) start); [lia|]. simpl.
  destruct (Z.ltb_spec (stop - start) 0); [lia|].
  destruct (Z.ltb_spec (Z.of_nat (length (frames f)) - start) (stop - start));
    [lia|]. simpl.
  eexists; split; [reflexivity|]. split; [|reflexivity].
  unfold shape0; simpl. rewrite length_take, length_drop. lia.
Qed.

(** ** The offline reassembler, one chunk at a time *)

Section Reassembler.

Context {B : Type} `{BufferLike B}.
Variable in_buffer : B.
Variable dtype_ : dtype.

Lemma store_unfold (online_arrs : gmap string ndarray) (k : string) (pos : Z)
    (c : ndarray) :
  let a0 := destination in_buffer dtype_ online_arrs k c in
  store in_buffer dtype_ online_arrs (k, (Some pos, Some c))
  = if fits a0 pos c then
      a' ← setitem_rows a0 (pos - Z.of_nat (shape0 c)) pos c;
      Ok (<[k := a']> online_arrs)
    else Ok (<[k := a0]> online_arrs).
Proof.
  unfold store, allocate, place, destination; simpl.
  destruct (online_arrs !! k) as [a|] eqn:Hk; simpl.
  - rewrite Hk. destruct (fits a pos c); [reflexivity|].
    by rewrite insert_id.
  - rewrite lookup_insert_eq.
    destruct (fits _ pos c); [|reflexivity].
    destruct (setitem_rows _ _ _ _); simpl; [|reflexivity].
    by rewrite insert_insert_eq.
Qed.

(** C1.  The write of one result chunk [(pos, data)], [pos] not [None],
    into the destination buffer of its stream is all or nothing.  When the
    slice [pos - len(data):pos] of the destination has [len(data)] rows,
    every row of the chunk is stored (converted to the destination's dtype
    and broadcast over its columns), in order, from the start of that
    slice on, and no other row changes; when it has not, the destination
    is left exactly as it was and nothing is raised.  The only exception
    possible is numpy's refusal of incompatible channel counts, and only
    when the slice has the right length. *)
Theorem store_all_or_nothing (online_arrs : gmap string ndarray) (k : string)
    (pos : Z) (data : ndarray) :
  let a0 := destination in_buffer dtype_ online_arrs k data in
  let start := pos - Z.of_nat (shape0 data) in
  let lo := Z.to_nat (slice_start (Z.of_nat (shape0 a0)) start pos) in
  match store in_buffer dtype_ online_arrs (k, (Some pos, Some data)) with
  | Ok online_arrs' =>
      if bool_decide (shape0 (getitem_rows a0 start pos) = shape0 data) then
        ∃ rows a',
          broadcast_cols (arr_ncols a0) (arr_dtype data) (arr_dtype a0) data
          = Ok rows
          ∧ length rows = shape0 data
          ∧ online_arrs' = <[k := a']> online_arrs
          ∧ arr_dtype a' = arr_dtype a0
          ∧ arr_ncols a' = arr_ncols a0
          ∧ shape0 a' = shape0 a0
          ∧ ∀ i : nat,
              arr_rows a' !! i
              = if decide (lo ≤ i < lo + shape0 data)%nat
                then rows !! (i - lo)%nat
                else arr_rows a0 !! i
      else online_arrs' = <[k := a0]> online_arrs
  | Raise e =>
      shape0 (getitem_rows a0 start pos) = shape0 data
      ∧ broadcast_cols (arr_ncols a0) (arr_dtype data) (arr_dtype a0) data
        = Raise e
  end.
Proof.
  intros a0 start lo. rewrite store_unfold. fold a0. fold start.
  change (bool_decide _) with (fits a0 pos data).
  assert (Hfit : fits a0 pos data = true →
                 shape0 (getitem_rows a0 start pos) = shape0 data).
  { unfold fits. by rewrite bool_decide_eq_true. }
  destruct (fits a0 pos data) eqn:Hf; [|reflexivity].
  pose proof (setitem_rows_fits a0 pos data Hf) as Hset. simpl in Hset.
  fold start in Hset. fold lo in Hset.
  destruct (broadcast_cols _ _ _ _) as [rows|e] eqn:Hb.
  - destruct Hset as (-> & Hlen & Hle). simpl.
    eexists rows, _. repeat split; try reflexivity; try assumption.
    + unfold shape0; simpl. by apply splice_length.
    + intros i. simpl. rewrite splice_lookup by assumption.
      by rewrite Hlen.
  - rewrite Hset. simpl. auto.
Qed.

(** C9 (amended).  A chunk with a non-negative position that the
    reassembler stores without an exception leaves the destination with
    the rows it had, and changes none of them outside
    [pos - len(data), pos).  When the chunk has at least one row, the test
    of line 81 holds exactly when [0 <= pos - len(data)] and
    [pos <= len(destination)]; otherwise the destination is left as it
    was. *)
Theorem write_stays_in_bounds (online_arrs online_arrs' : gmap string ndarray)
    (k : string) (pos : Z) (data : ndarray) :
  0 ≤ pos →
  store in_buffer dtype_ online_arrs (k, (Some pos, Some data))
  = Ok online_arrs' →
  let a0 := destination in_buffer dtype_ online_arrs k data in
  let len := Z.of_nat (shape0 data) in
  let inside := 0 ≤ pos - len ∧ pos ≤ Z.of_nat (shape0 a0) in
  ∃ a',
    online_arrs' = <[k := a']> online_arrs
    ∧ shape0 a' = shape0 a0
    ∧ (∀ i : nat,
         ¬ (pos - len ≤ Z.of_nat i < pos) →
         arr_rows a' !! i = arr_rows a0 !! i)
    ∧ (0 < len →
       (fits a0 pos data = true ↔ inside) ∧ (¬ inside → a' = a0)).
Proof.
  intros Hpos Hstore a0 len inside. rewrite store_unfold in Hstore.
  fold a0 in Hstore. fold len in Hstore.
  assert (Hiff : 0 < len → fits a0 pos data = true ↔ inside).
  { intros Hlen. rewrite fits_iff. fold len. apply slice_len_exact; lia. }
  destruct (fits a0 pos data) eqn:Hfits.
  - pose proof (setitem_rows_fits a0 pos data Hfits) as Hset.
    cbv zeta in Hset. fold len in Hset.
    destruct (broadcast_cols _ _ _ _) as [rows|e].
    2:{ rewrite Hset in Hstore. discriminate. }
    destruct Hset as (Hset & Hrows & Hle). rewrite Hset in Hstore.
    inversion Hstore; subst online_arrs'. clear Hstore.
    eexists. split; [reflexivity|]. cbn [arr_rows].
    split; [unfold shape0; cbn [arr_rows]; by apply splice_length|].
    split.
    + intros i Hout. rewrite splice_lookup by exact Hle.
      case_decide as Hin; [|reflexivity]. exfalso. apply Hout.
      destruct (decide (0 < len)) as [Hlen|Hlen].
      * destruct (Hiff Hlen) as [Hins _]. destruct (Hins eq_refl) as [H1 H2].
        rewrite slice_start_exact in Hin by lia.
        unfold len in *. lia.
      * unfold len in *. lia.
    + intros Hlen. split; [exact (Hiff Hlen)|].
      intros Hno. exfalso. apply Hno. by apply (Hiff Hlen).
  - inversion Hstore; subst online_arrs'. exists a0.
    split; [reflexivity|]. split; [reflexivity|]. split; [reflexivity|].
    intros Hlen. split; [exact (Hiff Hlen) | reflexivity].
Qed.

(** Two arrays of the same shape and dtype. *)
Definition same_shape (a a' : ndarray) : Prop :=
  shape0 a' = shape0 a ∧ arr_ncols a' = arr_ncols a
  ∧ arr_dtype a' = arr_dtype a.

Lemma setitem_rows_same_shape (a a' : ndarray) (pos : Z) (c : ndarray) :
  fits a pos c = true →
  setitem_rows a (pos - Z.of_nat (shape0 c)) pos c = Ok a' →
  same_shape a a'.
Proof.
  intros Hfits Hset.
  pose proof (setitem_rows_fits a pos c Hfits) as Hspec. simpl in Hspec.
  destruct (broadcast_cols _ _ _ _) as [rows|e].
  - destruct Hspec as (Heq & Hlen & Hle). rewrite Heq in Hset.
    inversion Hset; subst a'. unfold same_shape, shape0 in *; simpl.
    split; [by apply splice_length | split; reflexivity].
  - rewrite Hspec in Hset. discriminate.
Qed.

(** An item without position neither allocates nor writes. *)
Lemma store_None (online_arrs : gmap string ndarray) (k : string)
    (data : option ndarray) :
  store in_buffer dtype_ online_arrs (k, (None, data)) = Ok online_arrs.
Proof.
  unfold store, allocate, place; simpl.
  by destruct (online_arrs !! k).
Qed.

(** What one item does to the buffer of a stream [k]. *)
Lemma store_lookup (online_arrs online_arrs' : gmap string ndarray)
    (k' : string) (v : stream_result) (k : string) :
  store in_buffer dtype_ online_arrs (k', v) = Ok online_arrs' →
  match online_arrs !! k with
  | Some a => ∃ a', online_arrs' !! k = Some a' ∧ same_shape a a'
  | None =>
      if decide (k' = k) then
        match v.1 with
        | None => online_arrs' !! k = None
        | Some _ =>
            ∃ c a', v.2 = Some c ∧ online_arrs' !! k = Some a'
                    ∧ same_shape
                        (np_zeros (buf_shape0 in_buffer) (shape1 c) dtype_) a'
        end
      else online_arrs' !! k = None
  end.
Proof.
  destruct v as [[pos|] data]; simpl.
  2:{ rewrite store_None. intros Heq; inversion Heq; subst online_arrs'.
      destruct (online_arrs !! k) as [a|] eqn:Hk.
      - exists a. by repeat split.
      - by case_decide. }
  destruct data as [c|].
  2:{ unfold store, allocate, place; simpl.
      destruct (online_arrs !! k') eqn:Hk'; simpl; [|discriminate].
      rewrite Hk'. discriminate. }
  rewrite store_unfold. simpl.
  unfold destination.
  set (fresh := np_zeros (buf_shape0 in_buffer) (shape1 c) dtype_).
  assert (Hstep : ∀ a0, default fresh (online_arrs !! k') = a0 →
            (if fits a0 pos c
             then a' ← setitem_rows a0 (pos - Z.of_nat (shape0 c)) pos c;
                  Ok (<[k' := a']> online_arrs)
             else Ok (<[k' := a0]> online_arrs)) = Ok online_arrs' →
            ∃ a', online_arrs' = <[k' := a']> online_arrs ∧ same_shape a0 a').
  { intros a0 _. destruct (fits a0 pos c) eqn:Hfits.
    - destruct (setitem_rows a0 _ pos c) as [a'|e] eqn:Hset; simpl;
        [|discriminate].
      intros Heq; inversion Heq; subst. exists a'. split; [reflexivity|].
      by eapply setitem_rows_same_shape.
    - intros Heq; inversion Heq; subst. exists a0. by repeat split. }
  intros Hstore.
  destruct (Hstep _ eq_refl Hstore) as (a' & -> & Hshape).
  destruct (decide (k' = k)) as [->|Hne].
  - rewrite lookup_insert_eq.
    destruct (online_arrs !! k) as [a|] eqn:Hk; simpl in *.
    + exists a'. by split.
    + exists c, a'. split; [reflexivity|]. split; [reflexivity|].
      exact Hshape.
  - rewrite lookup_insert_ne by assumption.
    destruct (online_arrs !! k) as [a|] eqn:Hk; [|reflexivity].
    exists a. split; [reflexivity | by repeat split].
Qed.

Lemma same_shape_trans (a b c : ndarray) :
  same_shape a b → same_shape b c → same_shape a c.
Proof. unfold same_shape. intros (? & ? & ?) (? & ? & ?). repeat split; congruence. Qed.

(** What the items of a whole list do to the buffer of a stream [k]: a
    buffer that is there keeps its shape; one that is not is made for the
    first item of [k] with a position, and shaped after its chunk. *)
Lemma store_all_lookup (ret : returns)
    (online_arrs online_arrs' : gmap string ndarray) (k : string) :
  store_all in_buffer dtype_ ret online_arrs = Ok online_arrs' →
  match online_arrs !! k with
  | Some a => ∃ a', online_arrs' !! k = Some a' ∧ same_shape a a'
  | None =>
      match first_chunk k ret with
      | None => online_arrs' !! k = None
      | Some out_chunk =>
          ∃ c a', out_chunk = Some c ∧ online_arrs' !! k = Some a'
                  ∧ same_shape
                      (np_zeros (buf_shape0 in_buffer) (shape1 c) dtype_) a'
      end
  end.
Proof.
  revert online_arrs. induction ret as [|[k' v] ret IH]; intros online_arrs.
  { simpl. intros Heq; inversion Heq; subst.
    destruct (online_arrs' !! k) as [a|]; [|reflexivity].
    exists a. by repeat split. }
  simpl.
  destruct (store in_buffer dtype_ online_arrs (k', v)) as [arrs1|e] eqn:Hst;
    simpl; [|discriminate].
  intros Hall. specialize (IH arrs1 Hall).
  pose proof (store_lookup _ _ k' v k Hst) as Hone.
  destruct (online_arrs !! k) as [a|].
  - destruct Hone as (a1 & Ha1 & Hs1). rewrite Ha1 in IH.
    destruct IH as (a' & Ha' & Hs'). exists a'. split; [assumption|].
    by eapply same_shape_trans.
  - destruct v as [pos data]; simpl in *.
    destruct (decide (k' = k)) as [->|Hne].
    + destruct pos as [pos|].
      * destruct Hone as (c & a1 & -> & Ha1 & Hs1). rewrite Ha1 in IH.
        destruct IH as (a' & Ha' & Hs'). exists c, a'.
        split; [reflexivity|]. split; [assumption|].
        by eapply same_shape_trans.
      * by rewrite Hone in IH.
    + by rewrite Hone in IH.
Qed.

Lemma store_all_app (ret1 ret2 : returns) (online_arrs : gmap string ndarray) :
  store_all in_buffer dtype_ (ret1 ++ ret2) online_arrs
  = online_arrs' ← store_all in_buffer dtype_ ret1 online_arrs;
    store_all in_buffer dtype_ ret2 online_arrs'.
Proof.
  revert online_arrs. induction ret1 as [|kv ret1 IH]; intros online_arrs.
  { reflexivity. }
  simpl. destruct (store in_buffer dtype_ online_arrs kv); simpl;
    [apply IH | reflexivity].
Qed.

End Reassembler.

(** ** The scheduler loop *)

Section SchedulerFacts.

Context {conf : Type} (P : ProcessingClass conf).
Context {B : Type} `{BufferLike B}.
Variable in_buffer : B.
Variable chunksize : Z.
Variable dtype_ : dtype.

Local Abbreviation n := (buffer_size in_buffer).
Local Abbreviation for_loop_ := (for_loop P in_buffer chunksize dtype_).
Local Abbreviation loop_body_ := (loop_body P in_buffer chunksize dtype_).
Local Abbreviation in_chunk_at_ := (in_chunk_at in_buffer chunksize dtype_).

Lemma loop_cond_reached (s : loop_state P) :
  loop_cond P in_buffer s = negb (reached n (out_index s)).
Proof.
  unfold loop_cond, reached. destruct (out_index s) as [p|]; [|reflexivity].
  destruct (Z.ltb_spec p n), (Z.leb_spec n p); simpl; lia || reflexivity.
Qed.

(** What the body does to the generator's variables. *)
Lemma loop_body_Ok (s s' : loop_state P) (it : iteration) :
  loop_body_ s = Ok (it, s') →
  it_index it = index s + chunksize
  ∧ index s' = index s + chunksize
  ∧ in_chunk_at_ (index s + chunksize) = Ok (it_chunk it)
  ∧ out_index s' = main_pos (it_returns it)
  ∧ (processing s', it_returns it)
    = proccesing_func P (processing s) (it_index it) (it_chunk it).
Proof.
  unfold loop_body.
  destruct (in_chunk_at_ _) as [c|e]; simpl; [|discriminate].
  destruct (proccesing_func P _ _ c) as [p' ret] eqn:Hcall.
  destruct (returns_lookup _ ret) as [[o d]|e] eqn:Hmain; simpl;
    [|discriminate].
  intros Heq; inversion Heq; subst; simpl.
  unfold main_pos; simpl. rewrite Hmain, Hcall. repeat split; reflexivity.
Qed.

Section Run.

Context {A : Type} (consume : A → returns → A * control).



(** The position the generator last assigned to [out_index]. *)
Definition last_pos (s : loop_state P) (trace : list iteration) : option Z :=
  match last trace with
  | Some it => main_pos (it_returns it)
  | None => out_index s
  end.

Lemma last_pos_cons (s s' : loop_state P) (it : iteration)
    (trace : list iteration) :
  out_index s' = main_pos (it_returns it) →
  last_pos s (it :: trace) = last_pos s' trace.
Proof.
  unfold last_pos. intros Hout. destruct trace as [|it' trace].
  - simpl. by rewrite Hout.
  - change (last (it :: it' :: trace)) with (last (it' :: trace)).
    destruct (last (it' :: trace)) eqn:Hlast; [reflexivity|].
    apply last_None in Hlast. discriminate.
Qed.


(** The generator is exhausted only on a reported position at or beyond
    [buffer_size]. *)
Lemma for_loop_exhausted (fuel : nat) (s : loop_state P) (acc : A) :
  let r := for_loop_ consume fuel s acc in
  run_stop r = Exhausted →
  reached n (last_pos s (run_trace r)) = true.
Proof.
  revert s acc. induction fuel as [|fuel IH]; intros s acc; simpl.
  { discriminate. }
  destruct (loop_cond P in_buffer s) eqn:Hcond.
  - destruct (loop_body_ s) as [[it0 s']|e] eqn:Hbody; [|discriminate].
    destruct (consume acc (it_returns it0)) as [acc' []]; simpl;
      try discriminate.
    intros Hstop. apply loop_body_Ok in Hbody as (_ & _ & _ & Hout & _).
    rewrite (last_pos_cons s s' it0 _ Hout). by apply IH.
  - intros _. simpl. rewrite loop_cond_reached in Hcond.
    unfold last_pos; simpl. by destruct (reached n (out_index s)).
Qed.



(** A run that ended for another reason than the fuel is the same with
    any larger fuel. *)
Lemma for_loop_enough (fuel fuel' : nat) (s : loop_state P) (acc : A) :
  run_stop (for_loop_ consume fuel s acc) ≠ OutOfFuel →
  (fuel ≤ fuel')%nat →
  for_loop_ consume fuel' s acc = for_loop_ consume fuel s acc.
Proof.
  revert fuel' s acc. induction fuel as [|fuel IH]; intros fuel' s acc; simpl.
  { congruence. }
  intros Hstop Hle. destruct fuel' as [|fuel']; [lia|]. simpl.
  destruct (loop_cond P in_buffer s); [|reflexivity].
  destruct (loop_body_ s) as [[it0 s']|e]; [|reflexivity].
  destruct (consume acc (it_returns it0)) as [acc' []]; simpl in *;
    try reflexivity.
  rewrite (IH fuel' s' acc'); [reflexivity | assumption | lia].
Qed.


Lemma last_pos_reached (s : loop_state P) (trace : list iteration) :
  out_index s = None →
  reached n (last_pos s trace) = last_reached n trace.
Proof.
  unfold last_pos, last_reached. intros ->. by destruct (last trace).
Qed.





End Run.

End SchedulerFacts.

(** ** Offline runs *)

Section OfflineRuns.

Context {conf : Type} (P : ProcessingClass conf).
Context {B : Type} `{BufferLike B}.
Variable in_buffer : B.
Variable chunksize : Z.
Variable dtype_ : dtype.
Variable sample_rate : Q.
Variable processing_conf : conf.

Local Abbreviation offline_ :=
  (run_one_class_offline P in_buffer chunksize dtype_ sample_rate
     processing_conf).

(** The buffers of a run that did not fail are what the reassembler
    makes of the items of its trace, in order. *)
Lemma offline_for_loop_acc (fuel : nat) (s : loop_state P)
    (acc : gmap string ndarray) :
  let r := for_loop P in_buffer chunksize dtype_
             (offline_consume in_buffer dtype_) fuel s acc in
  match run_stop r with
  | Failed _ => True
  | _ => store_all in_buffer dtype_ (items (run_trace r)) acc
         = Ok (run_acc r)
  end.
Proof.
  revert s acc. induction fuel as [|fuel IH]; intros s acc; simpl.
  { reflexivity. }
  destruct (loop_cond P in_buffer s); [|reflexivity].
  destruct (loop_body P in_buffer chunksize dtype_ s) as [[it0 s']|e];
    [|exact I].
  destruct (offline_consume in_buffer dtype_ acc (it_returns it0))
    as [acc' c] eqn:Hc.
  unfold offline_consume in Hc.
  destruct (store_all in_buffer dtype_ (it_returns it0) acc) as [acc1|e]
    eqn:Hst; inversion Hc; subst; simpl; [|exact I].
  specialize (IH s' acc'). simpl in IH.
  destruct (run_stop _); try exact I;
    unfold items in *; simpl; rewrite store_all_app, Hst; exact IH.
Qed.

Lemma offline_acc (buffersize_margin : Z) (fuel : nat) :
  let r := offline_ buffersize_margin fuel in
  match run_stop r with
  | Failed _ => True
  | _ => store_all in_buffer dtype_ (items (run_trace r)) ∅ = Ok (run_acc r)
  end.
Proof.
  unfold run_one_class_offline, make_processing_loop, loop.
  destruct (chunksize =? 0); [exact I|]. apply offline_for_loop_acc.
Qed.

(** C5.  Two offline runs that differ only in [buffersize_margin] are the
    same run: the same iterations, the same destination buffers, the same
    end. *)
Theorem margin_changes_nothing (margin1 margin2 : Z) (fuel : nat) :
  let r1 := run_one_class_offline P in_buffer chunksize dtype_ sample_rate
              processing_conf margin1 fuel in
  let r2 := run_one_class_offline P in_buffer chunksize dtype_ sample_rate
              processing_conf margin2 fuel in
  r1 = r2
  ∧ run_acc r1 = run_acc r2
  ∧ length (run_trace r1) = length (run_trace r2)
  ∧ run_stop r1 = run_stop r2.
Proof. repeat split. Qed.

(** At the end of a run that did not fail, a stream has a buffer
    exactly when one of its items had a position; the buffer then has
    [buffer_size] rows, the channels of the first such chunk and the
    dtype of the run. *)
Lemma offline_buffers (buffersize_margin : Z) (fuel : nat) (k : string) :
  let r := offline_ buffersize_margin fuel in
  match run_stop r with
  | Failed _ => True
  | _ =>
      match first_chunk k (items (run_trace r)) with
      | None => run_acc r !! k = None
      | Some out_chunk =>
          ∃ c a, out_chunk = Some c
                 ∧ run_acc r !! k = Some a
                 ∧ shape0 a = buf_shape0 in_buffer
                 ∧ shape1 a = shape1 c
                 ∧ arr_dtype a = dtype_
      end
  end.
Proof.
  intros r.
  pose proof (offline_acc buffersize_margin fuel) as Hacc. simpl in Hacc.
  fold r in Hacc.
  assert (Hgoal : store_all in_buffer dtype_ (items (run_trace r)) ∅
                  = Ok (run_acc r) →
    match first_chunk k (items (run_trace r)) with
    | None => run_acc r !! k = None
    | Some out_chunk =>
        ∃ c a, out_chunk = Some c ∧ run_acc r !! k = Some a
               ∧ shape0 a = buf_shape0 in_buffer
               ∧ shape1 a = shape1 c ∧ arr_dtype a = dtype_
    end).
  { intros Hst. apply (store_all_lookup _ _ _ _ _ k) in Hst.
    rewrite lookup_empty in Hst.
    destruct (first_chunk k _) as [oc|]; [|exact Hst].
    destruct Hst as (c & a & -> & Ha & Hrows & Hcols & Hd).
    exists c, a. rewrite shape0_np_zeros in Hrows.
    repeat split; assumption. }
  destruct (run_stop r); (exact I || by apply Hgoal).
Qed.

(** C7.  In the offline reassembler:
    - an item whose position is [None] leaves [online_arrs] as it is;
    - an item with a position, of a stream that has no buffer yet, gets
      [np.zeros((buffer_size, out_chunk.shape[1]), dtype)] before anything
      is written;
    - a stream that has a buffer is never given another one;
    - so, at the end of a run that did not fail, a stream has a buffer
      exactly when one of its items had a position, and that buffer has
      [buffer_size] rows, the channel count of the chunk of the first such
      item, and the dtype of the run. *)
Theorem buffer_allocated_on_first_position (buffersize_margin : Z)
    (fuel : nat) (k : string) :
  let r := run_one_class_offline P in_buffer chunksize dtype_ sample_rate
             processing_conf buffersize_margin fuel in
  (∀ (online_arrs : gmap string ndarray) (data : option ndarray),
     store in_buffer dtype_ online_arrs (k, (None, data)) = Ok online_arrs)
  ∧ (∀ (online_arrs : gmap string ndarray) (pos : Z) (out_chunk : ndarray),
       online_arrs !! k = None →
       allocate in_buffer dtype_ online_arrs k (Some pos, Some out_chunk)
       = Ok (<[k := np_zeros (buf_shape0 in_buffer) (shape1 out_chunk) dtype_]>
               online_arrs))
  ∧ (∀ (online_arrs : gmap string ndarray) (v : stream_result),
       is_Some (online_arrs !! k) →
       allocate in_buffer dtype_ online_arrs k v = Ok online_arrs)
  ∧ match run_stop r with
    | Failed _ => True
    | _ =>
        match first_chunk k (items (run_trace r)) with
        | None => run_acc r !! k = None
        | Some out_chunk =>
            ∃ c a, out_chunk = Some c
                   ∧ run_acc r !! k = Some a
                   ∧ shape0 a = buf_shape0 in_buffer
                   ∧ shape1 a = shape1 c
                   ∧ arr_dtype a = dtype_
        end
    end.
Proof.
  intros r. split; [intros; apply store_None|].
  split. { intros arrs pos c Hk. unfold allocate; simpl. by rewrite Hk. }
  split. { intros arrs v [a Hk]. unfold allocate. by rewrite Hk. }
  apply offline_buffers.
Qed.

End OfflineRuns.

(** ** Exact tiling with the pass-through class

    A buffer of [k] whole chunks, run offline through [passthrough] with
    the dtype of the buffer, comes back as it was after [k] iterations. *)

Section Tiling.

Context {conf : Type}.
Variable d : dtype.
Variable c : nat.
Variable l : list (list sample).
Variable csn : nat.
Variable k : nat.
Hypothesis csn_pos : (0 < csn)%nat.
Hypothesis length_l : length l = (k * csn)%nat.

Local Abbreviation in_buffer := (mk_ndarray d c l).
Local Abbreviation cs := (Z.of_nat csn).
Local Abbreviation main := ("main_output"%string).

(** The state of the generator, the destination buffer and the
    reassembler's dict after [j] iterations; the chunk and the iteration
    number [j] (from 0). *)
Definition tile_state (j : nat) : loop_state (passthrough conf) :=
  mk_loop_state (passthrough conf) (Z.of_nat (j * csn))
    (match j with O => None | S _ => Some (Z.of_nat (j * csn)) end) tt.

Definition tile_buffer (j : nat) : ndarray :=
  mk_ndarray d c
    (take (j * csn) l ++ replicate (k * csn - j * csn) (replicate c zero)).

Definition tile_arrs (j : nat) : gmap string ndarray :=
  match j with
  | O => ∅
  | S _ => {[ main := tile_buffer j ]}
  end.

Definition tile_chunk (j : nat) : ndarray :=
  mk_ndarray d c (take csn (drop (j * csn) l)).

Definition tile_iteration (j : nat) : iteration :=
  mk_iteration (Z.of_nat (S j * csn)) (tile_chunk j)
    [(main, (Some (Z.of_nat (S j * csn)), Some (tile_chunk j)))].

Lemma tile_cond (j : nat) :
  loop_cond (passthrough conf) in_buffer (tile_state j)
  = bool_decide (j = O ∨ j < k)%nat.
Proof.
  unfold loop_cond, tile_state, buffer_size.
  cbn [out_index buf_shape0 ndarray_buffer]. unfold shape0.
  cbn [arr_rows]. rewrite length_l.
  case_bool_decide as Hj; destruct j as [|j]; try reflexivity.
  - apply Z.ltb_lt. destruct Hj as [Hj|Hj]; [discriminate|nia].
  - exfalso. apply Hj. by left.
  - apply Z.ltb_ge. assert (¬ (S j < k)%nat) by tauto. nia.
Qed.

Lemma tile_body (j : nat) :
  (j < k)%nat →
  loop_body (passthrough conf) in_buffer cs d (tile_state j)
  = Ok (tile_iteration j, tile_state (S j)).
Proof.
  intros Hj. unfold loop_body, tile_state. cbn [index processing].
  assert (Hp : Z.of_nat (j * csn) + cs = Z.of_nat (S j * csn)) by lia.
  rewrite Hp. clear Hp.
  assert (Hprev : Z.of_nat (S j * csn) - cs = Z.of_nat (j * csn)) by lia.
  assert (Hle : Z.of_nat (S j * csn) ≤ Z.of_nat (k * csn)) by nia.
  set (p1 := Z.of_nat (S j * csn)) in *.
  unfold in_chunk_at, buffer_size. cbn [buf_shape0 buf_getitem ndarray_buffer].
  assert (Hn : Z.of_nat (shape0 in_buffer) = Z.of_nat (k * csn)).
  { unfold shape0; simpl. by rewrite length_l. }
  rewrite Hn. destruct (Z.leb_spec p1 (Z.of_nat (k * csn))); [|lia].
  rewrite getitem_rows_inside by lia.
  cbn [arr_rows arr_dtype arr_ncols].
  replace (Z.to_nat (p1 - (p1 - cs))) with csn by lia.
  rewrite Hprev, Nat2Z.id. subst p1. reflexivity.
Qed.

Lemma convert_same (x : sample) : convert d d x = x.
Proof. unfold convert. by rewrite decide_True. Qed.

Lemma tile_store (j : nat) :
  (j < k)%nat →
  store_all in_buffer d (it_returns (tile_iteration j)) (tile_arrs j)
  = Ok (tile_arrs (S j)).
Proof.
  intros Hj. unfold tile_iteration. cbn [it_returns store_all].
  assert (Hprev : Z.of_nat (S j * csn) - cs = Z.of_nat (j * csn)) by lia.
  assert (Hle : Z.of_nat (S j * csn) ≤ Z.of_nat (k * csn)) by nia.
  assert (Hnext : (j * csn + csn = S j * csn)%nat) by lia.
  set (p1 := Z.of_nat (S j * csn)) in *.
  rewrite store_unfold.
  assert (Hdest : destination in_buffer d (tile_arrs j) main (tile_chunk j)
                  = tile_buffer j).
  { unfold destination, tile_arrs. destruct j as [|j].
    - rewrite lookup_empty. simpl. unfold np_zeros, tile_buffer, shape0.
      simpl. rewrite length_l. f_equal. f_equal. lia.
    - by rewrite lookup_singleton_eq. }
  rewrite Hdest.
  assert (Hchunk : shape0 (tile_chunk j) = csn).
  { unfold shape0; simpl. rewrite length_take, length_drop, length_l. nia. }
  assert (Hbuf : shape0 (tile_buffer j) = (k * csn)%nat).
  { unfold shape0; simpl.
    rewrite length_app, length_take, length_replicate, length_l. nia. }
  assert (Hfits : fits (tile_buffer j) p1 (tile_chunk j) = true).
  { apply fits_iff. rewrite Hchunk, Hbuf. apply slice_len_full; lia. }
  rewrite Hfits.
  pose proof (setitem_rows_fits _ _ _ Hfits) as Hset.
  cbv zeta in Hset. unfold broadcast_cols in Hset.
  rewrite decide_True in Hset by reflexivity.
  destruct Hset as (Hset & _ & _). rewrite Hset. clear Hset.
  rewrite Hchunk, Hbuf.
  rewrite slice_start_exact by lia.
  rewrite Hprev, Nat2Z.id.
  cbn [arr_rows arr_dtype arr_ncols tile_chunk tile_buffer].
  assert (Hrows : map (map (convert d d)) (take csn (drop (j * csn) l))
                  = take csn (drop (j * csn) l)).
  { rewrite <- (map_id (take csn (drop (j * csn) l))) at 2.
    apply map_ext. intros r. rewrite <- (map_id r) at 2.
    apply map_ext. apply convert_same. }
  rewrite Hrows.
  assert (Hlen : length (take csn (drop (j * csn) l)) = csn).
  { rewrite length_take, length_drop, length_l. nia. }
  assert (Htake : length (take (j * csn) l) = (j * csn)%nat).
  { rewrite length_take, length_l. nia. }
  rewrite Hlen.
  assert (Hnew : take (j * csn)
                   (take (j * csn) l
                    ++ replicate (k * csn - j * csn) (replicate c zero))
                 ++ take csn (drop (j * csn) l)
                 ++ drop (j * csn + csn)
                      (take (j * csn) l
                       ++ replicate (k * csn - j * csn) (replicate c zero))
                 = take (S j * csn) l
                   ++ replicate (k * csn - S j * csn) (replicate c zero)).
  { rewrite take_app_length' by (symmetry; exact Htake).
    rewrite drop_app_ge by lia. rewrite Htake, drop_replicate.
    rewrite app_assoc, take_take_drop, Hnext.
    f_equal. f_equal. lia. }
  rewrite Hnew. fold (tile_buffer (S j)).
  unfold tile_arrs. destruct j as [|j].
  - cbn. by rewrite insert_empty.
  - cbn. by rewrite insert_singleton_eq.
Qed.

Lemma tile_last : (0 < k)%nat → tile_buffer k = in_buffer.
Proof.
  intros Hk. unfold tile_buffer. rewrite Nat.sub_diag. simpl.
  rewrite app_nil_r, take_ge by lia. reflexivity.
Qed.

(** From the state after [j] iterations the run makes the remaining
    [k - j] and is exhausted. *)
Lemma tile_for_loop (m j : nat) (fuel : nat) :
  (0 < k)%nat → (j + m = k)%nat → (m < fuel)%nat →
  for_loop (passthrough conf) in_buffer cs d (offline_consume in_buffer d)
    fuel (tile_state j) (tile_arrs j)
  = mk_run (map tile_iteration (seq j m)) (tile_state k) (tile_arrs k)
      Exhausted.
Proof.
  intros Hk. revert j fuel. induction m as [|m IH]; intros j fuel Hjm Hfuel.
  - assert (j = k) by lia. subst j.
    destruct fuel as [|fuel]; [lia|]. simpl.
    rewrite tile_cond. rewrite bool_decide_eq_false_2 by lia. reflexivity.
  - destruct fuel as [|fuel]; [lia|]. simpl.
    rewrite tile_cond. rewrite bool_decide_eq_true_2 by lia.
    rewrite tile_body by lia.
    unfold offline_consume at 1. rewrite tile_store by lia.
    rewrite (IH (S j) fuel) by lia. reflexivity.
Qed.

End Tiling.

(** Exact tiling: a buffer of [k > 0] whole chunks of [csn > 0] rows, run
    offline through [passthrough] with the buffer's own dtype and enough
    fuel, takes [k] iterations and gives the buffer back. *)
Lemma passthrough_tiles {conf : Type} (d : dtype) (c : nat)
    (l : list (list sample)) (csn k : nat) (sample_rate : Q)
    (processing_conf : conf) (buffersize_margin : Z) (fuel : nat) :
  (0 < csn)%nat → (0 < k)%nat → length l = (k * csn)%nat → (k < fuel)%nat →
  run_one_class_offline (passthrough conf) (mk_ndarray d c l) (Z.of_nat csn) d
    sample_rate processing_conf buffersize_margin fuel
  = mk_run (map (tile_iteration d c l csn) (seq 0 k))
      (tile_state (conf := conf) csn k)
      {[ "main_output" := mk_ndarray d c l ]} Exhausted.
Proof.
  intros Hcs Hk Hlen Hfuel.
  unfold run_one_class_offline, make_processing_loop, loop.
  destruct (Z.eqb_spec (Z.of_nat csn) 0); [lia|].
  change (mk_loop_state (passthrough conf) 0 None _)
    with (tile_state (conf := conf) csn 0).
  change (∅ : gmap string ndarray) with (tile_arrs d c l csn k 0).
  rewrite (tile_for_loop d c l csn k Hcs Hlen k 0 fuel Hk eq_refl Hfuel).
  f_equal. unfold tile_arrs. destruct k as [|k']; [lia|].
  by rewrite (tile_last d c l csn (S k') Hcs Hlen) by lia.
Qed.

(** C4.  [chunksize = 512], a buffer of 2048 rows and one channel, the
    pass-through class, and the run's dtype that of the buffer: the run
    makes exactly four iterations, whose main-output positions are 512,
    1024, 1536 and 2048 in this order, and ends with the destination
    buffer of the main output equal to the input buffer. *)
Theorem passthrough_512_2048 {conf : Type} (d : dtype)
    (l : list (list sample)) (sample_rate : Q) (processing_conf : conf)
    (buffersize_margin : Z) (fuel : nat) :
  length l = 2048%nat → (5 ≤ fuel)%nat →
  let in_buffer := mk_ndarray d 1 l in
  let r := run_one_class_offline (passthrough conf) in_buffer 512 d
             sample_rate processing_conf buffersize_margin fuel in
  run_stop r = Exhausted
  ∧ length (run_trace r) = 4%nat
  ∧ map (fun it => main_pos (it_returns it)) (run_trace r)
    = [Some 512; Some 1024; Some 1536; Some 2048]
  ∧ run_acc r = {[ "main_output" := in_buffer ]}
  ∧ run_acc r !! "main_output" = Some in_buffer.
Proof.
  intros Hlen Hfuel in_buffer r. subst r in_buffer.
  change 512 with (Z.of_nat 512).
  rewrite (passthrough_tiles d 1 l 512 4); [| lia | lia | exact Hlen | lia].
  cbn [run_stop run_trace run_acc].
  split; [reflexivity|]. split; [reflexivity|]. split; [reflexivity|].
  split; [reflexivity | apply lookup_singleton_eq].
Qed.

(** ** The public entry points *)

Section EntryPointFacts.

Variable loss : Type.
Variable extra : Type.
Variable InvCGC : ProcessingClass (params loss extra).

Local Abbreviation params_ := (params loss extra).

(** The rank-two float32 array [compute_numpy] hands to
    [run_one_class_offline]. *)
Definition prepared (sound : nparray) : ndarray :=
  astype float32
    match sound with
    | Rank1 d xs => add_axis d xs
    | Rank2 a => a
    end.

(** [len(sound)] *)
Definition np_len (sound : nparray) : nat :=
  match sound with
  | Rank1 _ xs => length xs
  | Rank2 a => shape0 a
  end.

Lemma shape0_prepared (sound : nparray) : shape0 (prepared sound) = np_len sound.
Proof.
  destruct sound as [d xs|a]; unfold prepared, shape0; simpl;
    by rewrite !length_map.
Qed.

Lemma compute_numpy_unfold (sound : nparray) (sample_rate : Q) (p : params_)
    (fuel : nat) :
  compute_numpy loss extra InvCGC sound sample_rate p fuel
  = let r := run_one_class_offline InvCGC (prepared sound) (chunksize_ _ _ p)
               float32 sample_rate p (backward_chunksize _ _ p) fuel in
    match run_stop r with
    | OutOfFuel => None
    | Failed e => Some (Raise e)
    | Broke | Exhausted =>
        match run_acc r !! "main_output" with
        | None => Some (Raise (KeyError "main_output"))
        | Some out_sound =>
            match sound with
            | Rank1 _ _ => Some (column0 out_sound)
            | Rank2 _ => Some (Ok (Rank2 out_sound))
            end
        end
    end.
Proof. destruct sound; reflexivity. Qed.

(** C10.  When [compute_numpy] returns an array, the main output stream
    has reported a position with a chunk, and the array returned
    - for an input of rank one, is of rank one, float32, and as long as
      the input;
    - for an input of rank two, is of rank two, float32, with as many rows
      as the input and the channel count of the first main-output chunk
      that came with a position. *)
Theorem compute_numpy_keeps_shape (sound : nparray) (sample_rate : Q)
    (p : params_) (fuel : nat) (out : nparray) :
  compute_numpy loss extra InvCGC sound sample_rate p fuel = Some (Ok out) →
  let r := run_one_class_offline InvCGC (prepared sound) (chunksize_ _ _ p)
             float32 sample_rate p (backward_chunksize _ _ p) fuel in
  ∃ c, first_chunk "main_output" (items (run_trace r)) = Some (Some c)
       ∧ match sound, out with
         | Rank1 _ xs, Rank1 d' ys => d' = float32 ∧ length ys = length xs
         | Rank2 a, Rank2 b =>
             arr_dtype b = float32 ∧ shape0 b = shape0 a
             ∧ shape1 b = shape1 c
         | _, _ => False
         end.
Proof.
  intros Hrun r.
  pose proof (offline_buffers InvCGC (prepared sound) (chunksize_ _ _ p)
                float32 sample_rate p (backward_chunksize _ _ p) fuel
                "main_output") as Hbuf.
  cbv zeta in Hbuf. fold r in Hbuf.
  pose proof (shape0_prepared sound) as Hlen.
  assert (Hout : ∃ a, run_acc r !! "main_output" = Some a
                      ∧ (∀ e, run_stop r ≠ Failed e)
                      ∧ match sound with
                        | Rank1 _ _ => column0 a
                        | Rank2 _ => Ok (Rank2 a)
                        end = Ok out).
  { rewrite compute_numpy_unfold in Hrun. cbv zeta in Hrun. fold r in Hrun.
    destruct (run_stop r); try discriminate;
      (destruct (run_acc r !! "main_output") as [a|]; [|discriminate];
       exists a; split; [reflexivity|]; split; [discriminate|];
       destruct sound; by inversion Hrun). }
  destruct Hout as (a & Ha & Hstop & Hres).
  assert (Hshape : ∃ c, first_chunk "main_output" (items (run_trace r))
                        = Some (Some c)
                        ∧ shape0 a = np_len sound ∧ shape1 a = shape1 c
                        ∧ arr_dtype a = float32).
  { destruct (run_stop r) eqn:Hs; try (by destruct (Hstop e));
      (destruct (first_chunk _ _) as [oc|]; [|congruence];
       destruct Hbuf as (c & a' & -> & Ha' & Hrows & Hcols & Hd);
       rewrite Ha in Ha'; inversion Ha'; subst a';
       exists c; simpl in Hrows; rewrite Hlen in Hrows; by repeat split). }
  destruct Hshape as (c & Hfirst & Hrows & Hcols & Hd).
  exists c. split; [exact Hfirst|].
  destruct sound as [d xs|a0]; simpl in *.
  - unfold column0 in Hres. case_decide; [discriminate|].
    inversion Hres; subst out. split; [exact Hd|].
    rewrite length_map. exact Hrows.
  - inversion Hres; subst out. by repeat split.
Qed.

(** C8.  Without the [soundfile] module, or with the output filename
    equal to the input filename, [compute_wave_file] ends at once in an
    [AssertionError]: the files are as they were and neither the
    processing object nor the loop was made.  The first error carries its
    own message, the second none. *)
Theorem compute_wave_file_refuses (in_filename out_filename : string)
    (duration_limit : option number) (p : params_) (fs : FileSystem)
    (fuel : nat) :
  compute_wave_file loss extra InvCGC false in_filename out_filename
    duration_limit p fs fuel
  = Ended _ _ _
      (mk_wave_outcome loss extra InvCGC fs None
         (Failed (AssertionError (Some "soundfile need to be installed"))))
  ∧ compute_wave_file loss extra InvCGC true in_filename in_filename
      duration_limit p fs fuel
    = Ended _ _ _
        (mk_wave_outcome loss extra InvCGC fs None
           (Failed (AssertionError None))).
Proof.
  split; [reflexivity|].
  unfold compute_wave_file; simpl. by rewrite decide_True.
Qed.

(** *** Streaming to a file *)

Section WaveLoop.

Context {B : Type} `{BufferLike B}.
Variable in_buffer : B.
Variable chunksize : Z.
Variable lim : number.
Variable sample_rate : float.

Local Abbreviation wave_loop_ :=
  (for_loop InvCGC in_buffer chunksize float32
     (wave_consume (Some lim) sample_rate)).

(** The test of lines 184-185 on a reported position. *)
Local Abbreviation test_ pos := (limit_reached (Some lim) pos sample_rate).

(** What the consumer does with a result that has a main output. *)
Lemma wave_consume_spec (out_wav : SoundFile) (ret : returns) :
  (∃ v, returns_lookup "main_output" ret = Ok v) →
  let it_rows :=
    match main_data ret with
    | Some data => map (map (convert (arr_dtype data) float32)) (arr_rows data)
    | None => []
    end in
  match wave_consume (Some lim) sample_rate out_wav ret with
  | (out_wav', Next) =>
      frames out_wav' = frames out_wav ++ it_rows
      ∧ test_ (main_pos ret) = Ok false
  | (out_wav', Break) =>
      frames out_wav' = frames out_wav ++ it_rows
      ∧ test_ (main_pos ret) = Ok true
  | (_, Fail _) => True
  end.
Proof.
  intros [[pos data] Hv]. unfold wave_consume, main_data, main_pos.
  rewrite Hv.
  destruct data as [data|]; cbn [fst snd].
  - unfold sf_write. case_decide; [|exact I]. cbn [frames].
    destruct (limit_reached (Some lim) pos sample_rate) as [[]|e];
      [by split | by split | exact I].
  - rewrite app_nil_r.
    destruct (limit_reached (Some lim) pos sample_rate) as [[]|e];
      [by split | by split | exact I].
Qed.

Lemma loop_body_main (s s' : loop_state InvCGC) (it : iteration) :
  loop_body InvCGC in_buffer chunksize float32 s = Ok (it, s') →
  ∃ v, returns_lookup "main_output" (it_returns it) = Ok v.
Proof.
  unfold loop_body.
  destruct (in_chunk_at _ _ _ _) as [c|e]; simpl; [|discriminate].
  destruct (proccesing_func InvCGC _ _ c) as [p' ret].
  destruct (returns_lookup _ ret) as [[o d]|e] eqn:Hmain; simpl;
    [|discriminate].
  intros Heq; inversion Heq; subst; simpl. eauto.
Qed.

(** The output file of a run that did not fail holds what the iterations
    of its trace wrote, after what it held before; the test failed on
    every iteration before the last; and a run left by [break] ended on
    an iteration on which it held. *)
Lemma wave_loop_spec (fuel : nat) (s : loop_state InvCGC)
    (out_wav : SoundFile) :
  let r := wave_loop_ fuel s out_wav in
  (∀ (i : nat) (it : iteration),
     run_trace r !! i = Some it → (S i < length (run_trace r))%nat →
     test_ (main_pos (it_returns it)) = Ok false)
  ∧ (run_stop r = Broke →
     ∃ it, last (run_trace r) = Some it
           ∧ test_ (main_pos (it_returns it)) = Ok true)
  ∧ ((∀ e, run_stop r ≠ Failed e) →
     frames (run_acc r) = frames out_wav ++ written (run_trace r)).
Proof.
  revert s out_wav. induction fuel as [|fuel IH]; intros s out_wav; simpl.
  { split; [intros i it Hi; discriminate|]. split; [discriminate|].
    intros _. by rewrite app_nil_r. }
  destruct (loop_cond InvCGC in_buffer s).
  2:{ simpl. split; [intros i it Hi; discriminate|]. split; [discriminate|].
      intros _. by rewrite app_nil_r. }
  destruct (loop_body InvCGC in_buffer chunksize float32 s)
    as [[it0 s']|e] eqn:Hbody.
  2:{ simpl. split; [intros i it Hi; discriminate|]. split; [discriminate|].
      intros Hne. by destruct (Hne e). }
  pose proof (wave_consume_spec out_wav (it_returns it0)
                (loop_body_main _ _ _ Hbody)) as Hc. cbv zeta in Hc.
  fold (written_rows it0) in Hc.
  destruct (wave_consume (Some lim) sample_rate out_wav (it_returns it0))
    as [out_wav' []]; simpl.
  - destruct Hc as [Hfr Hlim].
    destruct (IH s' out_wav') as (IH1 & IH2 & IH3). simpl in *.
    split; [|split].
    + intros [|i] it; simpl.
      * intros Heq _. by inversion Heq; subst.
      * intros Hi Hlen. apply (IH1 i it Hi). lia.
    + intros Hstop. destruct (IH2 Hstop) as (it & Hlast & Hover).
      exists it. split; [|exact Hover].
      destruct (run_trace (wave_loop_ fuel s' out_wav')) as [|it1 t];
        [discriminate | exact Hlast].
    + intros Hne. rewrite (IH3 Hne), Hfr. unfold written; simpl.
      by rewrite app_assoc.
  - destruct Hc as [Hfr Hlim]. split; [|split].
    + intros [|i] it; simpl; [intros _ Hlen; lia | intros Hi; discriminate].
    + intros _. exists it0. by split.
    + intros _. rewrite Hfr. unfold written; simpl. by rewrite app_nil_r.
  - split; [|split].
    + intros [|i] it; simpl; [intros _ Hlen; lia | intros Hi; discriminate].
    + discriminate.
    + intros Hne. by destruct (Hne e).
Qed.

(** On a gapless trace on none of whose iterations but the last the test
    held, the last position reported counts the frames written, and is
    at most one chunk beyond a frame count that is zero or on which the
    test fails. *)
Lemma gapless_last (trace : list iteration) (w : Z) :
  gapless chunksize w trace = true →
  (∀ (i : nat) (it : iteration),
     trace !! i = Some it → (S i < length trace)%nat →
     test_ (main_pos (it_returns it)) = Ok false) →
  w = 0 ∨ test_ (Some w) = Ok false →
  ∀ (it : iteration) (p : Z),
    last trace = Some it → main_pos (it_returns it) = Some p →
    p = w + Z.of_nat (length (written trace))
    ∧ ∃ w' : Z,
        (w' = 0 ∨ test_ (Some w') = Ok false)
        ∧ w' ≤ p ≤ w' + chunksize.
Proof.
  revert w. induction trace as [|it0 trace IH]; intros w Hgap Hbefore Hw it p.
  { discriminate. }
  simpl in Hgap. unfold written; simpl. fold (written trace).
  rewrite length_app. unfold written_rows at 1.
  destruct trace as [|it1 trace].
  - simpl. intros Hlast Hp. inversion Hlast; subst it0. rewrite Hp in Hgap.
    destruct (main_data (it_returns it)) as [data|]; [|discriminate].
    apply andb_prop in Hgap as [Hgap _]. apply andb_prop in Hgap as [Hp1 Hp2].
    apply Z.eqb_eq in Hp1. apply Z.leb_le in Hp2.
    rewrite !length_map. fold (shape0 data). split; [clear - Hp1; lia|].
    exists w. split; [exact Hw | clear - Hp1 Hp2; lia].
  - intros Hlast Hp.
    change (last (it0 :: it1 :: trace)) with (last (it1 :: trace)) in Hlast.
    assert (Hrest : ∀ (i : nat) (it' : iteration),
              (it1 :: trace) !! i = Some it' →
              (S i < length (it1 :: trace))%nat →
              test_ (main_pos (it_returns it')) = Ok false).
    { intros i it' Hi Hlen. apply (Hbefore (S i) it' Hi). simpl in *.
      clear - Hlen. lia. }
    assert (Hit0 : test_ (main_pos (it_returns it0)) = Ok false).
    { apply (Hbefore O it0 eq_refl). simpl. clear. lia. }
    destruct (main_pos (it_returns it0)) as [p0|],
             (main_data (it_returns it0)) as [data|]; try discriminate.
    + apply andb_prop in Hgap as [Hgap Hgap'].
      apply andb_prop in Hgap as [Hp1 Hp2]. apply Z.eqb_eq in Hp1.
      destruct (IH p0 Hgap' Hrest (or_intror Hit0) it p Hlast Hp)
        as [Htot Hup].
      split; [|exact Hup]. rewrite !length_map. fold (shape0 data).
      clear - Htot Hp1. lia.
    + destruct (IH w Hgap Hrest Hw it p Hlast Hp) as [Htot Hup].
      split; [|exact Hup]. simpl. exact Htot.
Qed.

End WaveLoop.

(** C6 (amended).  A call of [compute_wave_file] with a duration limit
    [lim] that reached the loop and returned.  The test of the loop is
    [out_index/sample_rate >= lim] with the quotient of binary64.
    - The output file holds exactly what the iterations of the run wrote,
      so nothing is written after the iteration the loop stopped on.
    - The test failed on every iteration before the last.
    - The loop was left by [break] on an iteration on which the test
      held, or else ended on a position at or beyond the length of the
      input.
    - If moreover the main output is a gapless stream (each result has
      neither position nor data, or at most [chunksize] rows and the
      position reached by appending them), then with [w] the number of
      frames written: after a [break] the test holds of [w], otherwise
      [w] is at least the length of the input; and [w] is at most
      [chunksize] more than a frame count that is zero or on which the
      test fails. *)
Theorem duration_limit_stops_stream (in_filename out_filename : string)
    (lim : number) (p : params_) (fs : FileSystem) (fuel : nat)
    (in_wav : SoundFile) (o : wave_outcome loss extra InvCGC)
    (r : run InvCGC SoundFile) :
  let sr := float_of_Z (samplerate in_wav) in
  let test pos := limit_reached (Some lim) pos sr in
  compute_wave_file loss extra InvCGC true in_filename out_filename
    (Some lim) p fs fuel = Ended _ _ _ o →
  file_at fs in_filename = Some in_wav →
  wo_run _ _ _ o = Some r →
  wo_stop _ _ _ o = Exhausted ∨ wo_stop _ _ _ o = Broke →
  ∃ out_wav,
    file_at (wo_files _ _ _ o) out_filename = Some out_wav
    ∧ frames out_wav = written (run_trace r)
    ∧ (∀ (i : nat) (it : iteration),
         run_trace r !! i = Some it → (S i < length (run_trace r))%nat →
         test (main_pos (it_returns it)) = Ok false)
    ∧ match wo_stop _ _ _ o with
      | Broke => ∃ it, last (run_trace r) = Some it
                       ∧ test (main_pos (it_returns it)) = Ok true
      | _ => last_reached (Z.of_nat (length (frames in_wav))) (run_trace r)
             = true
      end
    ∧ (gapless (chunksize_ _ _ p) 0 (run_trace r) = true →
       let w := Z.of_nat (length (frames out_wav)) in
       match wo_stop _ _ _ o with
       | Broke => test (Some w) = Ok true
       | _ => Z.of_nat (length (frames in_wav)) ≤ w
       end
       ∧ ∃ w' : Z,
           (w' = 0 ∨ test (Some w') = Ok false)
           ∧ w' ≤ w ≤ w' + chunksize_ _ _ p).
Proof.
  intros sr test Hcall Hin Hrun Hstop.
  unfold compute_wave_file in Hcall. simpl negb in Hcall. cbv iota in Hcall.
  destruct (decide (in_filename = out_filename)) as [Heq|Hne].
  { injection Hcall as <-. discriminate. }
  unfold open_read in Hcall. rewrite Hin in Hcall.
  unfold open_write in Hcall.
  destruct (fs_refuses fs out_filename _ _) as [e|].
  { injection Hcall as <-. discriminate. }
  destruct (fill_loss_params loss extra p (channels in_wav)) as [p'|e].
  2:{ injection Hcall as <-. discriminate. }
  destruct (decide (fs_path fs in_filename = fs_path fs out_filename));
    [discriminate|].
  unfold make_processing_loop in Hcall. cbv zeta in Hcall.
  cbn [snd] in Hcall. injection Hcall as <-.
  cbn [wo_run wo_stop wo_files] in *.
  unfold file_at, set_file. cbn [fs_files fs_path].
  rewrite lookup_insert_eq.
  change (buf_shape1 (WaveNumpy_init in_wav)) with (channels in_wav) in *.
  fold sr in Hrun, Hstop |- *.
  assert (Hr : loop InvCGC (WaveNumpy_init in_wav) (chunksize_ _ _ p) float32
                 (proc_init InvCGC (channels in_wav) (float_value sr) float32
                    p')
                 (wave_consume (Some lim) sr) fuel
                 (mk_SoundFile (channels in_wav) (samplerate in_wav) [])
               = r) by (injection Hrun as Hrun; exact Hrun).
  clear Hrun. rewrite Hr in Hstop |- *.
  exists (run_acc r). split; [reflexivity|].
  unfold loop in Hr.
  destruct (chunksize_ loss extra p =? 0).
  { subst r. destruct Hstop; discriminate. }
  set (s0 := mk_loop_state InvCGC 0 None _) in Hr.
  set (out0 := mk_SoundFile (channels in_wav) (samplerate in_wav) []) in Hr.
  pose proof (wave_loop_spec (WaveNumpy_init in_wav) (chunksize_ _ _ p) lim
                sr fuel s0 out0) as (Hbefore & Hbroke & Hframes).
  cbv zeta in Hbefore, Hbroke, Hframes. rewrite Hr in Hbefore, Hbroke, Hframes.
  assert (Hwritten : frames (run_acc r) = written (run_trace r)).
  { apply Hframes. intros e He. destruct Hstop; congruence. }
  assert (Hexh : run_stop r = Exhausted →
            last_reached (Z.of_nat (length (frames in_wav))) (run_trace r)
            = true).
  { intros He.
    pose proof (for_loop_exhausted InvCGC (WaveNumpy_init in_wav)
                  (chunksize_ _ _ p) float32 (wave_consume (Some lim) sr)
                  fuel s0 out0) as Hx.
    cbv zeta in Hx. rewrite Hr in Hx. specialize (Hx He).
    rewrite (last_pos_reached InvCGC) in Hx by reflexivity. exact Hx. }
  split; [exact Hwritten|]. split; [exact Hbefore|].
  split. { destruct Hstop as [He|Hb]; rewrite ?He, ?Hb; auto. }
  intros Hgap. rewrite Hwritten.
  assert (Hlast : ∃ it pos,
            last (run_trace r) = Some it
            ∧ main_pos (it_returns it) = Some pos
            ∧ (run_stop r = Exhausted →
               Z.of_nat (length (frames in_wav)) ≤ pos)
            ∧ (run_stop r = Broke → test (Some pos) = Ok true)).
  { destruct Hstop as [He|Hb].
    - specialize (Hexh He). unfold last_reached in Hexh.
      destruct (last (run_trace r)) as [it|]; [|discriminate].
      destruct (main_pos (it_returns it)) as [pos|] eqn:Hpos; [|discriminate].
      exists it, pos. split; [reflexivity|]. split; [exact Hpos|]. split.
      + intros _. simpl in Hexh. by apply Z.leb_le.
      + intros Hb. congruence.
    - destruct (Hbroke Hb) as (it & Hl & Hover).
      destruct (main_pos (it_returns it)) as [pos|] eqn:Hpos; [|discriminate].
      exists it, pos. split; [exact Hl|]. split; [exact Hpos|]. split.
      + intros He. congruence.
      + intros _. exact Hover. }
  destruct Hlast as (it & pos & Hl & Hpos & Hge & Hover).
  destruct (gapless_last (chunksize_ _ _ p) lim sr (run_trace r) 0 Hgap
              Hbefore (or_introl eq_refl) it pos Hl Hpos) as [Htot Hup].
  assert (Hlen : Z.of_nat (length (written (run_trace r))) = pos).
  { clear - Htot. lia. }
  rewrite Hlen. split; [|exact Hup].
  destruct Hstop as [He|Hb]; rewrite ?He, ?Hb; auto.
Qed.

End EntryPointFacts.

(** * Further properties *)

(** ** Streams are stored independently *)

Section Streams.

Context {B : Type} `{BufferLike B}.
Variable in_buffer : B.
Variable dtype_ : dtype.

(** An item of another stream, or without position, leaves the buffer of
    stream [k] as it is. *)
Lemma store_frame (online_arrs online_arrs' : gmap string ndarray)
    (k' : string) (v : stream_result) (k : string) :
  store in_buffer dtype_ online_arrs (k', v) = Ok online_arrs' →
  k' ≠ k ∨ v.1 = None →
  online_arrs' !! k = online_arrs !! k.
Proof.
  destruct v as [[pos|] data]; simpl.
  2:{ rewrite store_None. intros Heq _. by inversion Heq. }
  intros Hstore [Hne|Hnone]; [|simpl in Hnone; discriminate].
  destruct data as [c|].
  2:{ unfold store, allocate, place in Hstore; simpl in Hstore.
      destruct (online_arrs !! k') eqn:Hk'; simpl in Hstore;
        [rewrite Hk' in Hstore|]; discriminate. }
  rewrite store_unfold in Hstore. cbv zeta in Hstore.
  destruct (fits _ pos c).
  - destruct (setitem_rows _ _ pos c) as [a'|e]; simpl in Hstore;
      [|discriminate].
    inversion Hstore; subst. by rewrite lookup_insert_ne.
  - inversion Hstore; subst. by rewrite lookup_insert_ne.
Qed.

(** X1.  A result dict in which stream [k] has no item with a position
    leaves the destination buffer of [k] exactly as it was (or absent),
    whatever the other streams of the dict write. *)
Theorem store_all_leaves_silent_stream (ret : returns)
    (online_arrs online_arrs' : gmap string ndarray) (k : string) :
  store_all in_buffer dtype_ ret online_arrs = Ok online_arrs' →
  first_chunk k ret = None →
  online_arrs' !! k = online_arrs !! k.
Proof.
  revert online_arrs. induction ret as [|[k' [pos data]] ret IH];
    intros online_arrs; cbn [store_all first_chunk].
  { intros Heq _. by inversion Heq. }
  destruct (store in_buffer dtype_ online_arrs _) as [arrs1|e] eqn:Hst;
    [|cbn; discriminate].
  cbn [mbind result_bind]. intros Hall Hfirst.
  assert (Hside : (k' ≠ k ∨ pos = None) ∧ first_chunk k ret = None).
  { destruct (decide (k' = k)); [|by split; [left|]].
    destruct pos; [discriminate | by split; [right|]]. }
  destruct Hside as [Hside Hrest].
  rewrite (IH arrs1 Hall Hrest).
  by apply (store_frame _ _ k' (pos, data) k Hst).
Qed.

End Streams.

(** ** The dict returned by [run_one_class_offline] *)

Lemma first_chunk_main_pos (ret : returns) (p : Z) :
  main_pos ret = Some p → first_chunk "main_output" ret ≠ None.
Proof.
  unfold main_pos. induction ret as [|[k' [pos data]] ret IH]; simpl.
  { discriminate. }
  destruct (decide (k' = "main_output")); [|exact IH].
  intros ->. discriminate.
Qed.

Lemma first_chunk_app (k : string) (ret1 ret2 : returns) :
  first_chunk k (ret1 ++ ret2)
  = match first_chunk k ret1 with
    | Some c => Some c
    | None => first_chunk k ret2
    end.
Proof.
  induction ret1 as [|[k' [pos data]] ret1 IH]; simpl; [reflexivity|].
  destruct (decide (k' = k)); [|exact IH].
  destruct pos; [reflexivity | exact IH].
Qed.

Lemma first_chunk_items (k : string) (trace1 trace2 : list iteration)
    (it : iteration) :
  first_chunk k (it_returns it) ≠ None →
  first_chunk k (items (trace1 ++ it :: trace2)) ≠ None.
Proof.
  intros Hit. induction trace1 as [|it1 trace1 IH]; unfold items in *; simpl;
    rewrite first_chunk_app.
  - by destruct (first_chunk k (it_returns it)).
  - by destruct (first_chunk k (it_returns it1)).
Qed.

Section OfflineResult.

Context {conf : Type} (P : ProcessingClass conf).
Context {B : Type} `{BufferLike B}.
Variable in_buffer : B.
Variable chunksize : Z.
Variable dtype_ : dtype.
Variable sample_rate : Q.
Variable processing_conf : conf.

(** X2.  When [run_one_class_offline] returns, the dict it returns has
    the key 'main_output', and the array there has [buffer_size] rows and
    the dtype of the run. *)
Theorem offline_returns_main_output (buffersize_margin : Z) (fuel : nat) :
  let r := run_one_class_offline P in_buffer chunksize dtype_ sample_rate
             processing_conf buffersize_margin fuel in
  run_stop r = Exhausted →
  ∃ a, run_acc r !! "main_output" = Some a
       ∧ shape0 a = buf_shape0 in_buffer
       ∧ arr_dtype a = dtype_.
Proof.
  intros r Hstop.
  pose proof (offline_buffers P in_buffer chunksize dtype_ sample_rate
                processing_conf buffersize_margin fuel "main_output") as Hbuf.
  cbv zeta in Hbuf. fold r in Hbuf. rewrite Hstop in Hbuf.
  assert (Hfirst : first_chunk "main_output" (items (run_trace r)) ≠ None).
  { subst r. unfold run_one_class_offline, make_processing_loop, loop in *.
    destruct (chunksize =? 0); [discriminate|].
    set (s0 := mk_loop_state P 0 None _) in *.
    pose proof (for_loop_exhausted P in_buffer chunksize dtype_
                  (offline_consume in_buffer dtype_) fuel s0 ∅ Hstop) as Hx.
    rewrite (last_pos_reached P) in Hx by reflexivity.
    unfold last_reached in Hx.
    destruct (last (run_trace _)) as [it|] eqn:Hlast; [|discriminate].
    apply last_Some in Hlast as [trace1 Htrace]. rewrite Htrace.
    apply first_chunk_items.
    destruct (main_pos (it_returns it)) as [p|] eqn:Hp; [|discriminate].
    by apply (first_chunk_main_pos _ p). }
  destruct (first_chunk "main_output" (items (run_trace r))) as [oc|];
    [|congruence].
  destruct Hbuf as (c & a & _ & Ha & Hrows & _ & Hd).
  exists a. by repeat split.
Qed.

End OfflineResult.

(** ** [compute_wave_file] and the files *)

Section WaveFileFacts.

Variable loss : Type.
Variable extra : Type.
Variable InvCGC : ProcessingClass (params loss extra).

Local Abbreviation params_ := (params loss extra).
Local Abbreviation wave_file_ := (compute_wave_file loss extra InvCGC).

(** A dict with both keys has at least two entries. *)
Lemma size_two_keys (m : gmap string loss) (k1 k2 : string) :
  k1 ≠ k2 → is_Some (m !! k1) → is_Some (m !! k2) → (2 ≤ size m)%nat.
Proof.
  intros Hne [x1 H1] [x2 H2].
  rewrite <- (insert_id m k1 x1 H1), <- insert_delete_eq.
  rewrite map_size_insert_None by apply lookup_delete_eq.
  assert (Hk2 : delete k1 m !! k2 = Some x2) by by rewrite lookup_delete_ne.
  assert (Hpos : size (delete k1 m) ≠ O).
  { intros Hz. apply map_size_empty_inv in Hz. rewrite Hz in Hk2.
    by rewrite lookup_empty in Hk2. }
  lia.
Qed.

(** X3.  The fallback of lines 171-172 leaves 'chunksize',
    'backward_chunksize' and every entry of 'loss_params' but 'right' as
    they were; with at most two channels, when it does not raise, there
    are afterwards at least as many entries as channels. *)
Theorem loss_params_cover_stereo (p p' : params_) (nb_channel : nat) :
  (nb_channel ≤ 2)%nat →
  fill_loss_params loss extra p nb_channel = Ok p' →
  (nb_channel ≤ size (loss_params _ _ p'))%nat
  ∧ chunksize_ _ _ p' = chunksize_ _ _ p
  ∧ backward_chunksize _ _ p' = backward_chunksize _ _ p
  ∧ ∀ k, k ≠ "right" → loss_params _ _ p' !! k = loss_params _ _ p !! k.
Proof.
  intros Hnb. unfold fill_loss_params.
  destruct (decide (size (loss_params _ _ p) < nb_channel)%nat) as [Hlt|Hge].
  2:{ intros Heq; inversion Heq; subst. split; [lia|]. by repeat split. }
  destruct (loss_params _ _ p !! "left") as [l|] eqn:Hleft; [|discriminate].
  intros Heq; inversion Heq; subst; simpl. clear Heq.
  split; [|split; [reflexivity|split; [reflexivity|]]].
  - destruct (loss_params _ _ p !! "right") as [r|] eqn:Hright.
    + assert (2 ≤ size (loss_params _ _ p))%nat; [|lia].
      apply (size_two_keys _ "left" "right"); by eauto.
    + rewrite map_size_insert_None by exact Hright.
      assert (size (loss_params _ _ p) ≠ O); [|lia].
      intros Hz. apply map_size_empty_inv in Hz. rewrite Hz in Hleft.
      by rewrite lookup_empty in Hleft.
  - intros k Hk. by rewrite lookup_insert_ne.
Qed.

Lemma set_file_set_file (fs : FileSystem) (i : positive) (f g : SoundFile) :
  set_file (set_file fs i f) i g = set_file fs i g.
Proof. unfold set_file. cbn. by rewrite insert_insert_eq. Qed.

(** The consumer of [compute_wave_file] never changes the header of the
    output file. *)
Lemma wave_consume_header (duration_limit : option number)
    (sample_rate : float) (out_wav : SoundFile) (ret : returns) :
  let out_wav' := (wave_consume duration_limit sample_rate out_wav ret).1 in
  channels out_wav' = channels out_wav
  ∧ samplerate out_wav' = samplerate out_wav.
Proof.
  unfold wave_consume.
  destruct (returns_lookup _ ret) as [[pos data]|e]; [|by split].
  destruct data as [d|]; simpl.
  - unfold sf_write. case_decide; simpl; [|by split].
    destruct (limit_reached _ _ _) as [[]|]; by split.
  - destruct (limit_reached _ _ _) as [[]|]; by split.
Qed.

Lemma wave_loop_header {B : Type} `{BufferLike B} (in_buffer : B)
    (chunksize : Z) (duration_limit : option number) (sample_rate : float)
    (fuel : nat) (s : loop_state InvCGC) (out_wav : SoundFile) :
  let r := for_loop InvCGC in_buffer chunksize float32
             (wave_consume duration_limit sample_rate) fuel s out_wav in
  channels (run_acc r) = channels out_wav
  ∧ samplerate (run_acc r) = samplerate out_wav.
Proof.
  revert s out_wav. induction fuel as [|fuel IH]; intros s out_wav; simpl.
  { by split. }
  destruct (loop_cond InvCGC in_buffer s); [|by split].
  destruct (loop_body InvCGC in_buffer chunksize float32 s)
    as [[it0 s']|e]; [|by split].
  pose proof (wave_consume_header duration_limit sample_rate out_wav
                (it_returns it0)) as Hc. cbv zeta in Hc.
  destruct (wave_consume duration_limit sample_rate out_wav (it_returns it0))
    as [out_wav' []]; simpl in *; try exact Hc.
  destruct (IH s' out_wav') as [IH1 IH2]. destruct Hc as [Hc1 Hc2].
  split; congruence.
Qed.

(** The files as a call leaves them, or as it stood when it was last
    followed. *)
Definition files_after (c : wave_call loss extra InvCGC) : FileSystem :=
  match c with
  | Ended _ _ _ o => wo_files _ _ _ o
  | InputEmptied _ _ _ fs1 => fs1
  end.

(** X4.  [compute_wave_file] changes no file but the one [out_filename]
    leads to.  That file can be the input file: the assertion of line
    161 compares the two names, so that another path to the input file
    passes it, and if the library opens it, line 164 empties the input
    file before a frame of it was read; the call then fails on a missing
    'left' entry or goes on to its loop with the input emptied. *)
Theorem compute_wave_file_other_files (HAS_SOUNDFILE : bool)
    (in_filename out_filename : string) (duration_limit : option number)
    (p : params_) (fs : FileSystem) (fuel : nat) :
  let call :=
    wave_file_ HAS_SOUNDFILE in_filename out_filename duration_limit p fs
      fuel in
  (∀ i : positive,
     i ≠ fs_path fs out_filename →
     fs_files (files_after call) !! i = fs_files fs !! i)
  ∧ ∀ in_wav : SoundFile,
      HAS_SOUNDFILE = true →
      in_filename ≠ out_filename →
      fs_path fs in_filename = fs_path fs out_filename →
      file_at fs in_filename = Some in_wav →
      fs_refuses fs out_filename (channels in_wav) (samplerate in_wav)
      = None →
      let emptied :=
        set_file fs (fs_path fs in_filename)
          (mk_SoundFile (channels in_wav) (samplerate in_wav) []) in
      file_at emptied in_filename
      = Some (mk_SoundFile (channels in_wav) (samplerate in_wav) [])
      ∧ (call = InputEmptied _ _ _ emptied
         ∨ call = Ended _ _ _
                    (mk_wave_outcome _ _ _ emptied None
                       (Failed (KeyError "left")))).
Proof.
  intros call. subst call. split.
  - intros i Hi. unfold compute_wave_file.
    destruct HAS_SOUNDFILE; [|reflexivity]. simpl negb. cbv iota.
    destruct (decide (in_filename = out_filename)); [reflexivity|].
    destruct (open_read fs in_filename) as [in_wav|e]; [|reflexivity].
    unfold open_write.
    destruct (fs_refuses fs out_filename _ _) as [e|]; [reflexivity|].
    destruct (fill_loss_params _ _ p _) as [p'|e]; cbn [files_after wo_files].
    + destruct (decide (fs_path fs in_filename = fs_path fs out_filename)).
      * cbn. by rewrite lookup_insert_ne.
      * unfold make_processing_loop. cbv zeta. cbn.
        by rewrite !lookup_insert_ne.
    + cbn. by rewrite lookup_insert_ne.
  - intros in_wav -> Hne Hsame Hin Hopen emptied. subst emptied. split.
    { unfold file_at, set_file. cbn. by rewrite lookup_insert_eq. }
    unfold compute_wave_file. simpl negb. cbv iota.
    rewrite decide_False by exact Hne. unfold open_read. rewrite Hin.
    unfold open_write. rewrite Hopen, Hsame. unfold fill_loss_params.
    destruct (decide (size (loss_params _ _ p) < channels in_wav)%nat);
      [destruct (loss_params _ _ p !! "left") as [lv|]|].
    + rewrite decide_True by reflexivity. by left.
    + by right.
    + rewrite decide_True by reflexivity. by left.
Qed.

(** X5.  Once [compute_wave_file] has opened the input file, and with an
    output path that leads to another file: if the library refuses to
    open the output, the call ends in the library's exception and the
    files are as they were; otherwise the output file exists when the
    call ends, however it ends, with the channel count and the sample
    rate of the input file - the loop only appends frames. *)
Theorem output_file_has_input_header (in_filename out_filename : string)
    (duration_limit : option number) (p : params_) (fs : FileSystem)
    (fuel : nat) (in_wav : SoundFile) :
  fs_path fs in_filename ≠ fs_path fs out_filename →
  file_at fs in_filename = Some in_wav →
  let call :=
    wave_file_ true in_filename out_filename duration_limit p fs fuel in
  match fs_refuses fs out_filename (channels in_wav) (samplerate in_wav) with
  | Some e => call = Ended _ _ _ (mk_wave_outcome _ _ _ fs None (Failed e))
  | None =>
      ∃ o out_wav,
        call = Ended _ _ _ o
        ∧ file_at (wo_files _ _ _ o) out_filename = Some out_wav
        ∧ channels out_wav = channels in_wav
        ∧ samplerate out_wav = samplerate in_wav
  end.
Proof.
  intros Hfiles Hin call. subst call.
  assert (Hne : in_filename ≠ out_filename) by (intros ->; by apply Hfiles).
  unfold compute_wave_file. simpl negb. cbv iota.
  rewrite decide_False by exact Hne. unfold open_read. rewrite Hin.
  unfold open_write.
  destruct (fs_refuses fs out_filename _ _) as [e|]; [reflexivity|].
  destruct (fill_loss_params _ _ p _) as [p'|e].
  - rewrite decide_False by exact Hfiles.
    unfold make_processing_loop. cbv zeta.
    eexists _, _. split; [reflexivity|]. cbn [wo_files].
    unfold file_at, set_file. cbn [fs_files fs_path].
    rewrite lookup_insert_eq. split; [reflexivity|].
    unfold loop. destruct (chunksize_ _ _ p =? 0); [cbn; by split|].
    exact (wave_loop_header (WaveNumpy_init in_wav) _ _ _ fuel _
             (mk_SoundFile (channels in_wav) (samplerate in_wav) [])).
  - eexists _, _. split; [reflexivity|]. cbn [wo_files].
    unfold file_at, set_file. cbn [fs_files fs_path].
    rewrite lookup_insert_eq. by split.
Qed.

(** X6.  A call that opened the input file and the output file and then
    fails before the loop runs - on the missing 'left' entry, or on
    [chunksize = 0] - has already replaced the output file by an empty
    one. *)
Theorem early_failure_leaves_empty_output (in_filename out_filename : string)
    (duration_limit : option number) (p : params_) (fs : FileSystem)
    (fuel : nat) (in_wav : SoundFile) :
  fs_path fs in_filename ≠ fs_path fs out_filename →
  file_at fs in_filename = Some in_wav →
  fs_refuses fs out_filename (channels in_wav) (samplerate in_wav) = None →
  ((size (loss_params _ _ p) < channels in_wav)%nat
   ∧ loss_params _ _ p !! "left" = None)
  ∨ chunksize_ _ _ p = 0 →
  ∃ o,
    wave_file_ true in_filename out_filename duration_limit p fs fuel
    = Ended _ _ _ o
    ∧ wo_files _ _ _ o
      = set_file fs (fs_path fs out_filename)
          (mk_SoundFile (channels in_wav) (samplerate in_wav) [])
    ∧ (wo_stop _ _ _ o = Failed (KeyError "left")
       ∨ wo_stop _ _ _ o = Failed ZeroDivisionError).
Proof.
  intros Hfiles Hin Hopen Hcase.
  assert (Hne : in_filename ≠ out_filename) by (intros ->; by apply Hfiles).
  unfold compute_wave_file. simpl negb. cbv iota.
  rewrite decide_False by exact Hne. unfold open_read. rewrite Hin.
  unfold open_write. rewrite Hopen.
  cbv zeta. unfold fill_loss_params.
  destruct Hcase as [[Hlt Hleft]|Hcs].
  - rewrite decide_True by exact Hlt. rewrite Hleft.
    eexists. split; [reflexivity|]. cbn. by split; [|left].
  - assert (Hzero : (chunksize_ _ _ p =? 0) = true) by (by rewrite Hcs).
    destruct (decide (size (loss_params _ _ p) < channels in_wav)%nat);
      [destruct (loss_params _ _ p !! "left") as [lv|]|].
    + rewrite decide_False by exact Hfiles.
      unfold make_processing_loop, loop. cbn. rewrite Hzero.
      eexists. split; [reflexivity|]. cbn.
      rewrite set_file_set_file. by split; [|right].
    + eexists. split; [reflexivity|]. cbn. by split; [|left].
    + rewrite decide_False by exact Hfiles.
      unfold make_processing_loop, loop. cbn. rewrite Hzero.
      eexists. split; [reflexivity|]. cbn.
      rewrite set_file_set_file. by split; [|right].
Qed.

End WaveFileFacts.

(** ** A [WaveNumpy] stands for the array of its frames *)

(** The frames of a sound file as a float32 array. *)
Definition as_array (f : SoundFile) : ndarray :=
  mk_ndarray float32 (channels f) (frames f).

Lemma WaveNumpy_getitem_as_array (f : SoundFile) (start stop : Z) :
  0 ≤ start → start ≤ Z.of_nat (length (frames f)) → start ≤ stop →
  WaveNumpy_getitem (WaveNumpy_init f) start stop
  = Ok (getitem_rows (as_array f) start stop).
Proof.
  intros H0 H1 H2.
  assert (Hr : slice_range (Z.of_nat (shape0 (as_array f))) start stop
               = (start, Z.min stop (Z.of_nat (length (frames f))) - start)).
  { unfold slice_range, slice_bound, shape0, as_array; cbn [arr_rows].
    destruct (Z.ltb_spec start 0), (Z.ltb_spec stop 0); try lia.
    f_equal; lia. }
  unfold getitem_rows. rewrite Hr. clear Hr.
  unfold WaveNumpy_getitem, seek_read, WaveNumpy_init, as_array.
  cbn [wn_file arr_dtype arr_ncols arr_rows].
  destruct (Z.ltb_spec start 0); [lia|].
  destruct (Z.ltb_spec (Z.of_nat (length (frames f))) start); [lia|].
  cbn [orb]. f_equal. f_equal. f_equal. f_equal.
  destruct (Z.ltb_spec (stop - start) 0); [lia|]. cbn [orb].
  destruct (Z.ltb_spec (Z.of_nat (length (frames f)) - start) (stop - start));
    lia.
Qed.

(** X7.  A [WaveNumpy] has the shape of the array of the file's frames,
    and [WaveNumpy.__getitem__] answers a range that starts inside the
    file and does not run backwards as slicing that array does, a range
    that runs past the end included: both give the frames that are
    there. *)
Theorem WaveNumpy_reads_like_array (f : SoundFile) (start stop : Z) :
  0 ≤ start → start ≤ Z.of_nat (length (frames f)) → start ≤ stop →
  buf_shape0 (WaveNumpy_init f) = buf_shape0 (as_array f)
  ∧ buf_shape1 (WaveNumpy_init f) = buf_shape1 (as_array f)
  ∧ buf_getitem (WaveNumpy_init f) start stop
    = buf_getitem (as_array f) start stop.
Proof.
  intros H0 H1 H2. split; [reflexivity|]. split; [reflexivity|].
  by apply WaveNumpy_getitem_as_array.
Qed.

Section WaveAsArray.

Context {conf : Type} (P : ProcessingClass conf).
Variable f : SoundFile.
Variable chunksize : Z.
Variable dtype_ : dtype.

Lemma in_chunk_at_wave (index : Z) :
  0 ≤ chunksize → 0 ≤ index - chunksize →
  in_chunk_at (WaveNumpy_init f) chunksize dtype_ index
  = in_chunk_at (as_array f) chunksize dtype_ index.
Proof.
  intros Hcs Hidx. unfold in_chunk_at.
  change (buffer_size (WaveNumpy_init f)) with (buffer_size (as_array f)).
  change (buf_shape1 (WaveNumpy_init f)) with (buf_shape1 (as_array f)).
  destruct (Z.leb_spec index (buffer_size (as_array f))) as [Hle|Hgt];
    [|reflexivity].
  apply WaveNumpy_getitem_as_array; [lia | | lia].
  unfold buffer_size in Hle. simpl in Hle. unfold shape0 in Hle. simpl in Hle.
  lia.
Qed.

Lemma for_loop_wave {A : Type} (consume : A → returns → A * control)
    (fuel : nat) (s : loop_state P) (acc : A) :
  0 < chunksize → 0 ≤ index s →
  for_loop P (WaveNumpy_init f) chunksize dtype_ consume fuel s acc
  = for_loop P (as_array f) chunksize dtype_ consume fuel s acc.
Proof.
  intros Hcs. revert s acc. induction fuel as [|fuel IH]; intros s acc Hidx.
  { reflexivity. }
  cbn [for_loop].
  change (loop_cond P (WaveNumpy_init f) s)
    with (loop_cond P (as_array f) s).
  destruct (loop_cond P (as_array f) s); [|reflexivity].
  assert (Hbody : loop_body P (WaveNumpy_init f) chunksize dtype_ s
                  = loop_body P (as_array f) chunksize dtype_ s).
  { unfold loop_body. rewrite in_chunk_at_wave by lia. reflexivity. }
  rewrite Hbody.
  destruct (loop_body P (as_array f) chunksize dtype_ s)
    as [[it0 s']|e] eqn:Hb; [|reflexivity].
  apply loop_body_Ok in Hb as (_ & Hidx' & _).
  destruct (consume acc (it_returns it0)) as [acc' []]; try reflexivity.
  rewrite IH by lia. reflexivity.
Qed.

(** X8.  With a non-negative [chunksize], the generator made over a
    [WaveNumpy] and the one made over the array of the file's frames run
    alike: the same calls of [proccesing_func] on the same chunks, the
    same results for the consumer, the same end. *)
Theorem loop_on_file_is_loop_on_array {A : Type}
    (consume : A → returns → A * control) (processing0 : proc_state P)
    (fuel : nat) (acc : A) :
  0 ≤ chunksize →
  loop P (WaveNumpy_init f) chunksize dtype_ processing0 consume fuel acc
  = loop P (as_array f) chunksize dtype_ processing0 consume fuel acc.
Proof.
  intros Hcs. unfold loop.
  destruct (Z.eqb_spec chunksize 0); [reflexivity|].
  apply for_loop_wave; simpl; lia.
Qed.

End WaveAsArray.

(** ** The pass-through class on any buffer

    The calls the generator makes with [passthrough] on a buffer of any
    length: [m] of them, the last one on the first index at or beyond the
    end of the buffer. *)

Section PassThrough.

Context {conf : Type}.
Variable d : dtype.
Variable dtype_ : dtype.
Variable c : nat.
Variable l : list (list sample).
Variable csn : nat.
Variable m : nat.
Hypothesis csn_pos : (0 < csn)%nat.
Hypothesis m_pos : (0 < m)%nat.
Hypothesis m_covers : (length l ≤ m * csn)%nat.
Hypothesis m_least : m = 1%nat ∨ ((m - 1) * csn < length l)%nat.

Local Abbreviation in_buffer := (mk_ndarray d c l).
Local Abbreviation cs := (Z.of_nat csn).
Local Abbreviation main := ("main_output"%string).

(** The chunk of call number [j] (from 0): rows of the buffer while a
    whole chunk is left, a block of zeros after. *)
Definition pass_chunk (j : nat) : ndarray :=
  if decide (S j * csn ≤ length l)%nat
  then mk_ndarray d c (take csn (drop (j * csn) l))
  else np_zeros csn c dtype_.

Definition pass_iteration (j : nat) : iteration :=
  mk_iteration (Z.of_nat (S j * csn)) (pass_chunk j)
    [(main, (Some (Z.of_nat (S j * csn)), Some (pass_chunk j)))].

Lemma pass_cond (j : nat) :
  loop_cond (passthrough conf) in_buffer (tile_state csn j)
  = bool_decide (j = O ∨ j * csn < length l)%nat.
Proof.
  unfold loop_cond, tile_state, buffer_size.
  cbn [out_index buf_shape0 ndarray_buffer]. unfold shape0.
  cbn [arr_rows].
  case_bool_decide as Hj; destruct j as [|j]; try reflexivity.
  - apply Z.ltb_lt. destruct Hj as [Hj|Hj]; [discriminate|lia].
  - exfalso. apply Hj. by left.
  - apply Z.ltb_ge. assert (¬ (S j * csn < length l)%nat) by tauto. lia.
Qed.

Lemma pass_body (j : nat) :
  loop_body (passthrough conf) in_buffer cs dtype_ (tile_state csn j)
  = Ok (pass_iteration j, tile_state csn (S j)).
Proof.
  unfold loop_body, tile_state. cbn [index processing].
  assert (Hp : Z.of_nat (j * csn) + cs = Z.of_nat (S j * csn)) by lia.
  rewrite Hp. clear Hp.
  assert (Hprev : Z.of_nat (S j * csn) - cs = Z.of_nat (j * csn)) by lia.
  unfold pass_iteration, pass_chunk.
  set (p1 := Z.of_nat (S j * csn)) in *.
  unfold in_chunk_at, buffer_size. cbn [buf_shape0 buf_shape1 buf_getitem
                                         ndarray_buffer].
  unfold shape0 at 1, shape1. cbn [arr_rows arr_ncols].
  destruct (Z.leb_spec p1 (Z.of_nat (length l))) as [Hle|Hgt].
  - rewrite decide_True by (subst p1; lia).
    rewrite getitem_rows_inside;
      [| lia | lia | unfold shape0; cbn [arr_rows]; lia].
    cbn [arr_rows arr_dtype arr_ncols].
    replace (Z.to_nat (p1 - (p1 - cs))) with csn by lia.
    rewrite Hprev, Nat2Z.id. subst p1. reflexivity.
  - rewrite decide_False by (subst p1; lia).
    unfold np_zeros_Z. destruct (Z.ltb_spec cs 0); [lia|].
    rewrite Nat2Z.id. subst p1. reflexivity.
Qed.

(** With a consumer that goes on after each of these [m] results, the
    run is these [m] iterations and then exhausted. *)
Lemma pass_for_loop {A : Type} (consume : A → returns → A * control)
    (acc_ : nat → A) (fuel : nat) :
  (∀ j, (j < m)%nat →
        consume (acc_ j) (it_returns (pass_iteration j))
        = (acc_ (S j), Next)) →
  (m < fuel)%nat →
  for_loop (passthrough conf) in_buffer cs dtype_ consume fuel
    (tile_state csn 0) (acc_ O)
  = mk_run (map pass_iteration (seq 0 m)) (tile_state csn m) (acc_ m)
      Exhausted.
Proof.
  intros Hconsume.
  assert (Hgen : ∀ (r j fuel' : nat),
            (j + r = m)%nat → (r < fuel')%nat →
            for_loop (passthrough conf) in_buffer cs dtype_ consume fuel'
              (tile_state csn j) (acc_ j)
            = mk_run (map pass_iteration (seq j r)) (tile_state csn m)
                (acc_ m) Exhausted).
  { induction r as [|r IH]; intros j fuel' Hjr Hfuel.
    - assert (j = m) by lia. subst j.
      destruct fuel' as [|fuel']; [lia|]. cbn [for_loop].
      rewrite pass_cond. rewrite bool_decide_eq_false_2; [reflexivity|].
      intros [Hz|Hlt]; lia.
    - destruct fuel' as [|fuel']; [lia|]. cbn [for_loop].
      rewrite pass_cond. rewrite bool_decide_eq_true_2.
      2:{ destruct (decide (j = O)); [by left|right].
          destruct m_least as [Hm|Hm]; [lia|]. nia. }
      rewrite pass_body. rewrite Hconsume by lia.
      rewrite (IH (S j) fuel') by lia. reflexivity. }
  intros Hfuel. by apply (Hgen m O fuel).
Qed.

End PassThrough.

(** ** The tail that does not fill a chunk *)

Section Tail.

Context {conf : Type}.
Variable d : dtype.
Variable c : nat.
Variable l : list (list sample).
Variable csn : nat.
Variable k : nat.
Variable rem : nat.
Hypothesis csn_pos : (0 < csn)%nat.
Hypothesis rem_small : (rem < csn)%nat.
Hypothesis length_l : length l = (k * csn + rem)%nat.

Local Abbreviation in_buffer := (mk_ndarray d c l).
Local Abbreviation cs := (Z.of_nat csn).
Local Abbreviation main := ("main_output"%string).

(** The number of iterations: one per whole chunk, and one more unless
    the buffer is a positive number of whole chunks. *)
Definition tail_iterations : nat :=
  (k + if decide (rem = O ∧ 0 < k) then 0 else 1)%nat.

(** The destination after [j] iterations: the first [min j k] chunks of
    the input, zeros after. *)
Definition tail_buffer (j : nat) : ndarray :=
  mk_ndarray d c
    (take (Nat.min j k * csn) l
     ++ replicate (length l - Nat.min j k * csn) (replicate c zero)).

Definition tail_arrs (j : nat) : gmap string ndarray :=
  match j with
  | O => ∅
  | S _ => {[ main := tail_buffer j ]}
  end.

Lemma tail_destination (j : nat) (chunk : ndarray) :
  arr_ncols chunk = c →
  destination in_buffer d (tail_arrs j) main chunk = tail_buffer j.
Proof.
  intros Hc. unfold destination, tail_arrs. destruct j as [|j].
  - rewrite lookup_empty. cbn [default buf_shape0 ndarray_buffer].
    unfold np_zeros, tail_buffer, shape0, shape1. cbn [arr_rows].
    rewrite Hc. cbn [Nat.min Nat.mul take app]. by rewrite Nat.sub_0_r.
  - by rewrite lookup_singleton_eq.
Qed.

Lemma tail_insert (j : nat) (a : ndarray) :
  <[main := a]> (tail_arrs j) = {[ main := a ]}.
Proof.
  unfold tail_arrs. destruct j.
  - by rewrite insert_empty.
  - by rewrite insert_singleton_eq.
Qed.

Lemma shape0_tail_buffer (j : nat) : shape0 (tail_buffer j) = length l.
Proof.
  unfold shape0, tail_buffer. cbn [arr_rows].
  rewrite length_app, length_take, length_replicate. nia.
Qed.

(** A whole chunk of the input is stored in its place. *)
Lemma tail_store_chunk (j : nat) :
  (j < k)%nat →
  store_all in_buffer d (it_returns (pass_iteration d d c l csn j))
    (tail_arrs j)
  = Ok (tail_arrs (S j)).
Proof.
  intros Hj. unfold pass_iteration, pass_chunk. cbn [it_returns store_all].
  rewrite decide_True by nia.
  set (chunk := mk_ndarray d c (take csn (drop (j * csn) l))).
  assert (Hprev : Z.of_nat (S j * csn) - cs = Z.of_nat (j * csn)) by lia.
  assert (Hle : Z.of_nat (S j * csn) ≤ Z.of_nat (length l)) by nia.
  assert (Hnext : (j * csn + csn = S j * csn)%nat) by lia.
  set (p1 := Z.of_nat (S j * csn)) in *.
  rewrite store_unfold. cbv zeta.
  rewrite tail_destination by reflexivity.
  assert (Hchunk : shape0 chunk = csn).
  { unfold shape0, chunk; cbn [arr_rows].
    rewrite length_take, length_drop. nia. }
  assert (Hfits : fits (tail_buffer j) p1 chunk = true).
  { apply fits_iff. rewrite Hchunk, shape0_tail_buffer.
    apply slice_len_full; lia. }
  rewrite Hfits.
  pose proof (setitem_rows_fits _ _ _ Hfits) as Hset.
  cbv zeta in Hset. unfold broadcast_cols in Hset.
  rewrite decide_True in Hset by reflexivity.
  destruct Hset as (Hset & _ & _). rewrite Hset. clear Hset.
  rewrite Hchunk, shape0_tail_buffer.
  rewrite slice_start_exact by lia.
  rewrite Hprev, Nat2Z.id.
  unfold chunk, tail_buffer. cbn [arr_rows arr_dtype arr_ncols].
  rewrite !Nat.min_l by lia.
  assert (Hrows : map (map (convert d d)) (take csn (drop (j * csn) l))
                  = take csn (drop (j * csn) l)).
  { rewrite <- (map_id (take csn (drop (j * csn) l))) at 2.
    apply map_ext. intros r. rewrite <- (map_id r) at 2.
    apply map_ext. apply convert_same. }
  rewrite Hrows.
  assert (Hlen : length (take csn (drop (j * csn) l)) = csn).
  { rewrite length_take, length_drop. nia. }
  assert (Htake : length (take (j * csn) l) = (j * csn)%nat).
  { rewrite length_take. nia. }
  rewrite Hlen.
  assert (Hnew : take (j * csn)
                   (take (j * csn) l
                    ++ replicate (length l - j * csn) (replicate c zero))
                 ++ take csn (drop (j * csn) l)
                 ++ drop (j * csn + csn)
                      (take (j * csn) l
                       ++ replicate (length l - j * csn) (replicate c zero))
                 = take (S j * csn) l
                   ++ replicate (length l - S j * csn) (replicate c zero)).
  { rewrite take_app_length' by (symmetry; exact Htake).
    rewrite drop_app_ge by lia. rewrite Htake, drop_replicate.
    rewrite app_assoc, take_take_drop, Hnext.
    f_equal. f_equal. lia. }
  rewrite Hnew. cbn [mbind result_bind]. rewrite tail_insert.
  unfold tail_arrs, tail_buffer. by rewrite (Nat.min_l (S j) k) by lia.
Qed.

(** The block of zeros that follows the last whole chunk ends beyond the
    buffer: it is not stored. *)
Lemma tail_store_zeros :
  (k < tail_iterations)%nat →
  store_all in_buffer d (it_returns (pass_iteration d d c l csn k))
    (tail_arrs k)
  = Ok (tail_arrs (S k)).
Proof.
  intros Hm. unfold tail_iterations in Hm.
  assert (Hend : (length l < S k * csn)%nat).
  { destruct (decide (rem = O ∧ 0 < k)%nat) as [[? ?]|Hno]; [lia|]. nia. }
  unfold pass_iteration, pass_chunk. cbn [it_returns store_all].
  rewrite decide_False by lia.
  rewrite store_unfold. cbv zeta.
  rewrite tail_destination by reflexivity.
  assert (Hfits : fits (tail_buffer k) (Z.of_nat (S k * csn))
                    (np_zeros csn c d) = false).
  { apply not_true_is_false. intros Hf. apply fits_iff in Hf.
    rewrite shape0_np_zeros, shape0_tail_buffer in Hf.
    apply slice_len_exact in Hf; lia. }
  rewrite Hfits. cbn [mbind result_bind]. rewrite tail_insert.
  unfold tail_arrs, tail_buffer.
  by rewrite Nat.min_id, (Nat.min_r (S k) k) by lia.
Qed.

Lemma tail_consume (j : nat) :
  (j < tail_iterations)%nat →
  offline_consume in_buffer d (tail_arrs j)
    (it_returns (pass_iteration d d c l csn j))
  = (tail_arrs (S j), Next).
Proof.
  intros Hj. unfold offline_consume.
  destruct (decide (j < k)%nat) as [Hlt|Hge].
  - by rewrite tail_store_chunk.
  - assert (j = k). { unfold tail_iterations in Hj. case_decide; lia. }
    subst j. by rewrite tail_store_zeros.
Qed.

Lemma tail_run (sample_rate : Q) (processing_conf : conf)
    (buffersize_margin : Z) (fuel : nat) :
  (tail_iterations < fuel)%nat →
  run_one_class_offline (passthrough conf) in_buffer cs d sample_rate
    processing_conf buffersize_margin fuel
  = mk_run (map (pass_iteration d d c l csn) (seq 0 tail_iterations))
      (tile_state csn tail_iterations) (tail_arrs tail_iterations) Exhausted.
Proof.
  intros Hfuel.
  unfold run_one_class_offline, make_processing_loop, loop.
  destruct (Z.eqb_spec cs 0); [lia|].
  change (mk_loop_state (passthrough conf) 0 None _)
    with (tile_state (conf := conf) csn 0).
  change (∅ : gmap string ndarray) with (tail_arrs 0).
  apply (pass_for_loop d d c l csn tail_iterations); try assumption.
  - unfold tail_iterations. case_decide; lia.
  - unfold tail_iterations. case_decide; nia.
  - unfold tail_iterations. case_decide as Hc.
    + right. nia.
    + destruct (decide (k = O)); [left; lia | right; nia].
  - apply tail_consume.
Qed.

End Tail.

(** ** Streaming with the pass-through class *)

Lemma map_convert_same (d : dtype) (rows : list (list sample)) :
  map (map (convert d d)) rows = rows.
Proof.
  induction rows as [|r rows IH]; [reflexivity|]. cbn [map]. rewrite IH.
  f_equal. induction r as [|x r IHr]; [reflexivity|]. cbn [map].
  rewrite IHr. unfold convert. by rewrite decide_True.
Qed.

Section StreamPass.

Variable loss : Type.
Variable extra : Type.
Variable f : SoundFile.
Variable csn : nat.
Variable k : nat.
Variable rem : nat.
Hypothesis csn_pos : (0 < csn)%nat.
Hypothesis rem_small : (rem < csn)%nat.
Hypothesis length_f : length (frames f) = (k * csn + rem)%nat.

Local Abbreviation conf_ := (params loss extra).
Local Abbreviation chunk_ :=
  (pass_chunk float32 float32 (channels f) (frames f) csn).
Local Abbreviation iteration_ :=
  (pass_iteration float32 float32 (channels f) (frames f) csn).

(** The output file after [j] iterations. *)
Definition stream_file (j : nat) : SoundFile :=
  mk_SoundFile (channels f) (samplerate f)
    (concat (map (fun i => arr_rows (chunk_ i)) (seq 0 j))).

Lemma pass_chunk_header (j : nat) :
  arr_ncols (chunk_ j) = channels f ∧ arr_dtype (chunk_ j) = float32.
Proof. unfold pass_chunk. case_decide; by split. Qed.

Lemma stream_consume (sample_rate : float) (j : nat) :
  wave_consume None sample_rate (stream_file j) (it_returns (iteration_ j))
  = (stream_file (S j), Next).
Proof.
  unfold wave_consume, pass_iteration. cbn [it_returns returns_lookup].
  rewrite decide_True by reflexivity.
  destruct (pass_chunk_header j) as [Hcols Hd].
  unfold sf_write. cbn [channels stream_file]. rewrite decide_True by exact Hcols.
  cbn [limit_reached samplerate frames]. f_equal. unfold stream_file.
  f_equal. rewrite seq_S, map_app, concat_app. cbn [map concat].
  rewrite app_nil_r, Hd. f_equal. apply map_convert_same.
Qed.

Lemma stream_whole_chunks (j : nat) :
  (j ≤ k)%nat →
  concat (map (fun i => arr_rows (chunk_ i)) (seq 0 j))
  = take (j * csn) (frames f).
Proof.
  induction j as [|j IH]; intros Hj; [reflexivity|].
  rewrite seq_S, map_app, concat_app, IH by lia. cbn [map concat].
  rewrite app_nil_r. unfold pass_chunk. rewrite decide_True by nia.
  cbn [arr_rows]. rewrite take_take_drop. f_equal. lia.
Qed.

Lemma stream_run (processing0 : unit) (sample_rate : float) (fuel : nat) :
  (tail_iterations k rem < fuel)%nat →
  let r := loop (passthrough conf_) (WaveNumpy_init f) (Z.of_nat csn) float32
             processing0 (wave_consume None sample_rate) fuel
             (mk_SoundFile (channels f) (samplerate f) []) in
  run_stop r = Exhausted ∧ run_acc r = stream_file (tail_iterations k rem).
Proof.
  intros Hfuel. unfold loop.
  destruct (Z.eqb_spec (Z.of_nat csn) 0); [lia|].
  rewrite for_loop_wave by (simpl; lia).
  destruct processing0.
  change (mk_loop_state (passthrough conf_) 0 None ())
    with (tile_state (conf := conf_) csn 0).
  change (mk_SoundFile (channels f) (samplerate f) []) with (stream_file 0).
  unfold as_array.
  rewrite (pass_for_loop float32 float32 (channels f) (frames f) csn
             (tail_iterations k rem) csn_pos) with (acc_ := stream_file);
    [by split | | | | | exact Hfuel].
  - unfold tail_iterations. case_decide; lia.
  - unfold tail_iterations. case_decide; nia.
  - unfold tail_iterations. case_decide as Hc.
    + right. nia.
    + destruct (decide (k = O)); [left; lia | right; nia].
  - intros j _. apply stream_consume.
Qed.

End StreamPass.

(** X10.  [compute_wave_file] with the pass-through class and no duration
    limit, on a file of [k] whole chunks and [rem < chunksize] more
    frames, with enough fuel: the call returns, and the output file holds
    the whole chunks of the input followed - unless [rem = 0 < k] - by one
    whole chunk of zeros.  The frames after the last whole chunk are
    lost, and the output is longer than the input. *)
Theorem passthrough_stream_pads_tail (loss extra : Type)
    (in_filename out_filename : string) (p p' : params loss extra)
    (fs : FileSystem) (fuel : nat) (in_wav : SoundFile)
    (csn k rem : nat) :
  fs_path fs in_filename ≠ fs_path fs out_filename →
  file_at fs in_filename = Some in_wav →
  fs_refuses fs out_filename (channels in_wav) (samplerate in_wav) = None →
  fill_loss_params loss extra p (channels in_wav) = Ok p' →
  chunksize_ _ _ p = Z.of_nat csn →
  (0 < csn)%nat → (rem < csn)%nat →
  length (frames in_wav) = (k * csn + rem)%nat →
  (k + 1 < fuel)%nat →
  ∃ o,
    compute_wave_file loss extra (passthrough (params loss extra)) true
      in_filename out_filename None p fs fuel = Ended _ _ _ o
    ∧ wo_stop _ _ _ o = Exhausted
    ∧ file_at (wo_files _ _ _ o) out_filename
      = Some (mk_SoundFile (channels in_wav) (samplerate in_wav)
                (take (k * csn) (frames in_wav)
                 ++ if decide (rem = O ∧ 0 < k)%nat then []
                    else replicate csn (replicate (channels in_wav) zero))).
Proof.
  intros Hfiles Hin Hopen Hfill Hcs Hcsn Hrem Hlen Hfuel.
  assert (Hne : in_filename ≠ out_filename) by (intros ->; by apply Hfiles).
  unfold compute_wave_file. simpl negb. cbv iota.
  rewrite decide_False by exact Hne. unfold open_read. rewrite Hin.
  unfold open_write. rewrite Hopen, Hfill.
  rewrite decide_False by exact Hfiles.
  unfold make_processing_loop. cbv zeta. cbn [snd].
  eexists. split; [reflexivity|]. cbn [wo_stop wo_files].
  unfold file_at, set_file. cbn [fs_files fs_path].
  rewrite lookup_insert_eq, Hcs.
  destruct (stream_run loss extra in_wav csn k rem Hcsn Hrem Hlen
              (proc_init (passthrough (params loss extra))
                 (buf_shape1 (WaveNumpy_init in_wav))
                 (float_value (float_of_Z (samplerate in_wav))) float32 p')
              (float_of_Z (samplerate in_wav)) fuel) as [Hstop Hacc].
  { unfold tail_iterations. case_decide; lia. }
  split; [exact Hstop|]. rewrite Hacc. f_equal.
  unfold stream_file, tail_iterations. f_equal.
  case_decide as Hc.
  - rewrite Nat.add_0_r, app_nil_r.
    by apply (stream_whole_chunks in_wav csn k rem Hcsn Hrem Hlen).
  - rewrite Nat.add_1_r, seq_S, map_app, concat_app. cbn [map concat].
    rewrite app_nil_r.
    rewrite (stream_whole_chunks in_wav csn k rem Hcsn Hrem Hlen) by lia.
    f_equal. unfold pass_chunk. rewrite decide_False; [reflexivity|].
    assert (rem ≠ O ∨ k = O) by (destruct (decide (rem = O)); [right|left]; lia).
    nia.
Qed.

(** ** What any processing class can and cannot see *)

Section AnyClass.

Context {conf : Type} (P : ProcessingClass conf).

(** X11.  Every result dict the generator yields has the key
    'main_output': a consumer's own [returns['main_output']] never
    raises. *)
Theorem yielded_results_have_main_output {B : Type} `{BufferLike B}
    (in_buffer : B) (chunksize : Z) (dtype_ : dtype) {A : Type}
    (consume : A → returns → A * control) (processing0 : proc_state P)
    (fuel : nat) (acc : A) (i : nat) (it : iteration) :
  run_trace (loop P in_buffer chunksize dtype_ processing0 consume fuel acc)
    !! i = Some it →
  ∃ v, returns_lookup "main_output" (it_returns it) = Ok v.
Proof.
  unfold loop. destruct (chunksize =? 0); [intros Hi; discriminate|].
  generalize (mk_loop_state P 0 None processing0). intros s.
  revert s acc i. induction fuel as [|fuel IH]; intros s acc i;
    cbn [for_loop].
  { intros Hi; discriminate. }
  destruct (loop_cond P in_buffer s); [|intros Hi; discriminate].
  destruct (loop_body P in_buffer chunksize dtype_ s) as [[it0 s']|e]
    eqn:Hbody; [|intros Hi; discriminate].
  assert (Hmain : ∃ v, returns_lookup "main_output" (it_returns it0) = Ok v).
  { unfold loop_body in Hbody.
    destruct (in_chunk_at _ _ _ _) as [ch|e]; [|discriminate].
    cbn [mbind result_bind] in Hbody.
    destruct (proccesing_func P _ _ ch) as [p' ret].
    destruct (returns_lookup _ ret) as [[o dd]|e] eqn:Hl; [|discriminate].
    cbn [mbind result_bind] in Hbody. inversion Hbody; subst. eauto. }
  destruct (consume acc (it_returns it0)) as [acc' []]; cbn [run_trace run_cons];
    destruct i as [|i]; cbn; intros Hi;
    try (inversion Hi; subst; exact Hmain); try discriminate.
  by apply (IH s' acc' i).
Qed.

(** Two consumers that agree everywhere make the same run. *)
Lemma for_loop_ext {B : Type} `{BufferLike B} (in_buffer : B) (chunksize : Z)
    (dtype_ : dtype) {A : Type} (consume1 consume2 : A → returns → A * control)
    (fuel : nat) (s : loop_state P) (acc : A) :
  (∀ a ret, consume1 a ret = consume2 a ret) →
  for_loop P in_buffer chunksize dtype_ consume1 fuel s acc
  = for_loop P in_buffer chunksize dtype_ consume2 fuel s acc.
Proof.
  intros Hext. revert s acc. induction fuel as [|fuel IH]; intros s acc;
    cbn [for_loop]; [reflexivity|].
  destruct (loop_cond P in_buffer s); [|reflexivity].
  destruct (loop_body P in_buffer chunksize dtype_ s) as [[it0 s']|e];
    [|reflexivity].
  rewrite Hext. destruct (consume2 acc (it_returns it0)) as [acc' []];
    try reflexivity.
  by rewrite IH.
Qed.

Section SameWholeChunks.

Variable d : dtype.
Variable dtype_ : dtype.
Variable c : nat.
Variable l1 l2 : list (list sample).
Variable csn : nat.
Variable k : nat.
Hypothesis csn_pos : (0 < csn)%nat.
Hypothesis same_length : length l1 = length l2.
Hypothesis whole_chunks : (k * csn ≤ length l1 < S k * csn)%nat.
Hypothesis same_chunks : take (k * csn) l1 = take (k * csn) l2.

Local Abbreviation cs := (Z.of_nat csn).

Lemma in_chunk_at_same (j : nat) :
  in_chunk_at (mk_ndarray d c l1) cs dtype_ (Z.of_nat (S j * csn))
  = in_chunk_at (mk_ndarray d c l2) cs dtype_ (Z.of_nat (S j * csn)).
Proof.
  unfold in_chunk_at, buffer_size.
  cbn [buf_shape0 buf_shape1 buf_getitem ndarray_buffer].
  unfold shape0, shape1. cbn [arr_rows arr_ncols]. rewrite <- same_length.
  destruct (Z.leb_spec (Z.of_nat (S j * csn)) (Z.of_nat (length l1)));
    [|reflexivity].
  assert (Hj : (S j ≤ k)%nat) by nia.
  rewrite !getitem_rows_inside;
    [| lia | lia | unfold shape0; cbn [arr_rows]; lia
     | lia | lia | unfold shape0; cbn [arr_rows]; lia].
  cbn [arr_rows arr_dtype arr_ncols]. do 2 f_equal.
  replace (Z.to_nat (Z.of_nat (S j * csn) - (Z.of_nat (S j * csn) - cs)))
    with csn by lia.
  replace (Z.to_nat (Z.of_nat (S j * csn) - cs)) with (j * csn)%nat by lia.
  assert (Hcut : ∀ l : list (list sample),
            take csn (drop (j * csn) l)
            = take csn (drop (j * csn) (take (k * csn) l))).
  { intros l. rewrite !take_drop_commute, take_take.
    do 2 f_equal. nia. }
  rewrite (Hcut l1), (Hcut l2), same_chunks. reflexivity.
Qed.

Lemma for_loop_same {A : Type} (consume : A → returns → A * control)
    (fuel : nat) (s : loop_state P) (acc : A) (j : nat) :
  index s = Z.of_nat (j * csn) →
  for_loop P (mk_ndarray d c l1) cs dtype_ consume fuel s acc
  = for_loop P (mk_ndarray d c l2) cs dtype_ consume fuel s acc.
Proof.
  revert s acc j. induction fuel as [|fuel IH]; intros s acc j Hidx;
    cbn [for_loop]; [reflexivity|].
  assert (Hcond : loop_cond P (mk_ndarray d c l1) s
                  = loop_cond P (mk_ndarray d c l2) s).
  { unfold loop_cond, buffer_size. cbn [buf_shape0 ndarray_buffer].
    unfold shape0. cbn [arr_rows]. by rewrite same_length. }
  rewrite Hcond. destruct (loop_cond P (mk_ndarray d c l2) s); [|reflexivity].
  assert (Hbody : loop_body P (mk_ndarray d c l1) cs dtype_ s
                  = loop_body P (mk_ndarray d c l2) cs dtype_ s).
  { unfold loop_body. rewrite Hidx.
    replace (Z.of_nat (j * csn) + cs) with (Z.of_nat (S j * csn)) by lia.
    by rewrite in_chunk_at_same. }
  rewrite Hbody.
  destruct (loop_body P (mk_ndarray d c l2) cs dtype_ s) as [[it0 s']|e]
    eqn:Hb; [|reflexivity].
  apply loop_body_Ok in Hb as (_ & Hidx' & _).
  destruct (consume acc (it_returns it0)) as [acc' []]; try reflexivity.
  rewrite (IH s' acc' (S j)); [reflexivity|]. rewrite Hidx', Hidx. lia.
Qed.

Lemma offline_same (sample_rate : Q) (processing_conf : conf)
    (buffersize_margin : Z) (fuel : nat) :
  run_one_class_offline P (mk_ndarray d c l1) cs dtype_ sample_rate
    processing_conf buffersize_margin fuel
  = run_one_class_offline P (mk_ndarray d c l2) cs dtype_ sample_rate
      processing_conf buffersize_margin fuel.
Proof.
  unfold run_one_class_offline, make_processing_loop, loop.
  cbn [buf_shape1 ndarray_buffer shape1 arr_ncols].
  destruct (cs =? 0); [reflexivity|].
  rewrite (for_loop_same _ fuel _ ∅ O) by reflexivity.
  apply for_loop_ext. intros a ret. unfold offline_consume.
  assert (Hstore : ∀ r arrs, store_all (mk_ndarray d c l1) dtype_ r arrs
                             = store_all (mk_ndarray d c l2) dtype_ r arrs).
  { induction r as [|kv r IHr]; intros arrs; cbn [store_all]; [reflexivity|].
    assert (Hone : store (mk_ndarray d c l1) dtype_ arrs kv
                   = store (mk_ndarray d c l2) dtype_ arrs kv).
    { unfold store, allocate. cbn [buf_shape0 ndarray_buffer].
      unfold shape0 at 1 2. cbn [arr_rows]. by rewrite same_length. }
    rewrite Hone. clear Hone.
    destruct (store (mk_ndarray d c l2) dtype_ arrs kv) as [arrs1|e];
      [exact (IHr arrs1) | reflexivity]. }
  by rewrite Hstore.
Qed.

End SameWholeChunks.

(** X12.  Whatever the processing class, two input buffers of the same
    length, channel count and dtype that agree on their whole chunks give
    the same offline run: the rows after the last whole chunk of the
    input have no influence on the calls made, on the destination
    buffers, or on the end of the run. *)
Theorem tail_rows_have_no_influence (d dtype_ : dtype) (c : nat)
    (l1 l2 : list (list sample)) (csn k : nat) (sample_rate : Q)
    (processing_conf : conf) (buffersize_margin : Z) (fuel : nat) :
  (0 < csn)%nat →
  length l1 = length l2 →
  (k * csn ≤ length l1 < S k * csn)%nat →
  take (k * csn) l1 = take (k * csn) l2 →
  run_one_class_offline P (mk_ndarray d c l1) (Z.of_nat csn) dtype_
    sample_rate processing_conf buffersize_margin fuel
  = run_one_class_offline P (mk_ndarray d c l2) (Z.of_nat csn) dtype_
      sample_rate processing_conf buffersize_margin fuel.
Proof. intros. by apply (offline_same d dtype_ c l1 l2 csn k). Qed.

End AnyClass.

(** ** Storing a chunk twice *)

Lemma splice_idem {A} (l rows : list A) (lo : nat) :
  (lo + length rows ≤ length l)%nat →
  let l' := take lo l ++ rows ++ drop (lo + length rows) l in
  take lo l' ++ rows ++ drop (lo + length rows) l' = l'.
Proof.
  intros Hle l'. subst l'.
  assert (Hlo : length (take lo l) = lo) by (rewrite length_take; lia).
  rewrite take_app_length' by (symmetry; exact Hlo).
  rewrite drop_app_ge by lia. rewrite Hlo.
  replace (lo + length rows - lo)%nat with (length rows) by lia.
  by rewrite drop_app_length.
Qed.

(** X13.  Storing the same item a second time changes nothing: if the
    reassembler stored an item (with a position and a chunk) without an
    exception, storing it again gives the same dict. *)
Theorem store_twice_is_store_once {B : Type} `{BufferLike B} (in_buffer : B)
    (dtype_ : dtype) (online_arrs online_arrs' : gmap string ndarray)
    (k : string) (pos : Z) (data : ndarray) :
  store in_buffer dtype_ online_arrs (k, (Some pos, Some data))
  = Ok online_arrs' →
  store in_buffer dtype_ online_arrs' (k, (Some pos, Some data))
  = Ok online_arrs'.
Proof.
  rewrite !store_unfold. cbv zeta.
  set (a0 := destination in_buffer dtype_ online_arrs k data).
  assert (Hagain : ∀ a1,
            destination in_buffer dtype_ (<[k := a1]> online_arrs) k data
            = a1).
  { intros a1. unfold destination. by rewrite lookup_insert_eq. }
  destruct (fits a0 pos data) eqn:Hfits.
  - pose proof (setitem_rows_fits a0 pos data Hfits) as Hset.
    cbv zeta in Hset.
    destruct (broadcast_cols (arr_ncols a0) (arr_dtype data) (arr_dtype a0)
                data) as [rows|e] eqn:Hb.
    2:{ rewrite Hset. discriminate. }
    destruct Hset as (Hset & Hrows & Hle). rewrite Hset.
    cbn [mbind result_bind]. intros Heq. injection Heq as Harrs.
    subst online_arrs'.
    set (lo := Z.to_nat (slice_start (Z.of_nat (shape0 a0))
                           (pos - Z.of_nat (shape0 data)) pos)) in *.
    set (a1 := mk_ndarray (arr_dtype a0) (arr_ncols a0)
                 (take lo (arr_rows a0) ++ rows ++
                  drop (lo + length rows) (arr_rows a0))).
    rewrite (Hagain a1).
    assert (Hshape : shape0 a1 = shape0 a0).
    { unfold shape0, a1. cbn [arr_rows]. by apply splice_length. }
    assert (Hfits1 : fits a1 pos data = true).
    { apply fits_iff. rewrite Hshape. by apply fits_iff. }
    rewrite Hfits1.
    pose proof (setitem_rows_fits a1 pos data Hfits1) as Hset1.
    cbv zeta in Hset1. rewrite Hshape in Hset1. fold lo in Hset1.
    change (arr_ncols a1) with (arr_ncols a0) in Hset1.
    change (arr_dtype a1) with (arr_dtype a0) in Hset1.
    rewrite Hb in Hset1. destruct Hset1 as (Hset1 & _ & _).
    rewrite Hset1. cbn [mbind result_bind]. f_equal.
    rewrite insert_insert_eq. f_equal. unfold a1 at 3. f_equal.
    change (arr_rows a1)
      with (take lo (arr_rows a0) ++ rows ++
            drop (lo + length rows) (arr_rows a0)).
    by apply splice_idem.
  - intros Heq. injection Heq as Harrs. subst online_arrs'.
    rewrite (Hagain a0). rewrite Hfits. f_equal.
    by rewrite insert_insert_eq.
Qed.

(** X9.  The pass-through class, offline, on a buffer of [k] whole
    chunks and [rem < chunksize] more rows, with the buffer's own dtype
    and enough fuel.  The run makes one iteration per whole chunk and one
    more (fed with zeros) unless [rem = 0 < k], and returns a destination
    that holds the whole chunks of the input followed by [rem] rows of
    zeros: the rows of the input after the last whole chunk are never
    handed to the class and never written. *)
Theorem passthrough_drops_tail {conf : Type} (d : dtype) (c : nat)
    (l : list (list sample)) (csn k rem : nat) (sample_rate : Q)
    (processing_conf : conf) (buffersize_margin : Z) (fuel : nat) :
  (0 < csn)%nat → (rem < csn)%nat → length l = (k * csn + rem)%nat →
  (k + 1 < fuel)%nat →
  let r := run_one_class_offline (passthrough conf) (mk_ndarray d c l)
             (Z.of_nat csn) d sample_rate processing_conf buffersize_margin
             fuel in
  run_stop r = Exhausted
  ∧ length (run_trace r)
    = (k + if decide (rem = O ∧ 0 < k) then 0 else 1)%nat
  ∧ run_acc r
    = {[ "main_output" :=
           mk_ndarray d c
             (take (k * csn) l ++ replicate rem (replicate c zero)) ]}.
Proof.
  intros Hcs Hrem Hlen Hfuel r. subst r.
  rewrite (tail_run d c l csn k rem Hcs Hrem Hlen).
  2:{ unfold tail_iterations. case_decide; lia. }
  cbn [run_stop run_trace run_acc]. split; [reflexivity|].
  split. { by rewrite length_map, length_seq. }
  unfold tail_arrs, tail_iterations, tail_buffer.
  assert (Hmin : ∀ j, (k ≤ j)%nat → Nat.min j k = k) by (intros; lia).
  case_decide as Hc.
  - destruct Hc as [Hr Hk]. rewrite Nat.add_0_r, Nat.min_id.
    replace (length l - k * csn)%nat with rem by lia.
    destruct k; [lia | reflexivity].
  - rewrite Hmin by lia. rewrite Nat.add_1_r.
    replace (length l - k * csn)%nat with rem by lia. reflexivity.
Qed.

End Helper.

Arguments mk_ndarray {sample} _ _ _.
Arguments shape0 {sample} _.
Arguments shape1 {sample} _.
Arguments arr_rows {sample} _.
Arguments mk_iteration {sample} _ _ _.
Arguments it_index {sample} _.
Arguments it_chunk {sample} _.
Arguments it_returns {sample} _.
Arguments main_pos {sample} _.
Arguments items {sample} _.
Arguments first_chunk {sample} _ _.
Arguments lawful {sample B _} _.
Arguments run_trace {sample conf P A} _.
Arguments run_state {sample conf P A} _.
Arguments run_acc {sample conf P A} _.
Arguments run_stop {sample conf P A} _.
Arguments mk_SoundFile {sample} _ _ _.
Arguments samplerate {sample} _.
Arguments frames {sample} _.
Arguments Rank1 {sample} _ _.
Arguments Rank2 {sample} _.
Arguments mk_params {loss extra} _ _ _ _.
Arguments wo_files {sample loss extra InvCGC} _.
Arguments wo_run {sample loss extra InvCGC} _.
Arguments wo_stop {sample loss extra InvCGC} _.
Arguments mk_wave_outcome {sample loss extra InvCGC} _ _ _.
Arguments Ended {sample loss extra InvCGC} _.
Arguments InputEmptied {sample loss extra InvCGC} _.
Arguments files_after {sample loss extra InvCGC} _.
Arguments fs_path {sample} _ _.
Arguments fs_files {sample} _.
Arguments fs_refuses {sample} _ _ _ _.
Arguments file_at {sample} _ _.
Arguments set_file {sample} _ _ _.

(** * Scenarios

    The helper on integer samples, with conversions that change
    nothing. *)

Definition id_cast (d : dtype) (x : Z) : Z := x.

(** A one-channel float32 array with the given samples. *)
Definition column (xs : list Z) : ndarray Z :=
  mk_ndarray float32 1 (map (fun x => [x]) xs).

Definition ex_buffer5 : ndarray Z := column [1; 2; 3; 4; 5].


(** 2048 one-sample rows: 0, 1, 2, ... *)
Definition ex_ramp : list (list Z) :=
  map (fun i => [Z.of_nat i]) (seq 0 2048).

(** A mono file of 16 frames at 4 Hz. *)
Definition ex_wav : SoundFile Z :=
  mk_SoundFile 1 4
    (map (fun x => [x]) [1; 2; 3; 4; 5; 6; 7; 8; 9; 10; 11; 12; 13; 14; 15; 16]).

(** A directory that holds it as [in.wav]: a path may start with [./],
    a file can be written under any name that ends in [.wav]. *)
Definition ex_path (name : string) : positive :=
  encode (if String.prefix "./" name
          then String.substring 2 (String.length name - 2) name
          else name).

Definition ex_refuses (name : string) (c : nat) (sr : Z) : option exn :=
  if String.prefix "vaw." (String.rev name) then None else Some TypeError.

Definition ex_fs : FileSystem Z :=
  mk_FileSystem Z ex_path {[ ex_path "in.wav" := ex_wav ]} ex_refuses.

(** Two seconds, as a float. *)
Definition ex_limit : number := Float (float_of_Z 2).

Definition ex_params (chunksize : Z) : params unit unit :=
  mk_params chunksize 0 {[ "left"%string := tt ]} tt.

(** The loop of [compute_wave_file] on [ex_wav] with the pass-through
    class, chunks of four frames and a limit of two seconds. *)
Definition ex_run : run Z (passthrough Z (params unit unit)) (SoundFile Z) :=
  loop Z 0 (passthrough Z (params unit unit)) (WaveNumpy_init Z ex_wav) 4
    float32 tt (wave_consume Z id_cast (Some ex_limit) (float_of_Z 4)) 10
    (mk_SoundFile 1 4 []).


(** C4, witness: the ramp of 2048 samples. *)
Lemma passthrough_512_2048_witness :
  let r := run_one_class_offline Z 0 id_cast (passthrough Z unit)
             (mk_ndarray float32 1 ex_ramp) 512 float32 16000%Q tt 0 5 in
  length ex_ramp = 2048%nat
  ∧ (5 ≤ 5)%nat
  ∧ run_stop r = Exhausted
  ∧ length (run_trace r) = 4%nat
  ∧ map (fun it => main_pos (it_returns it)) (run_trace r)
    = [Some 512; Some 1024; Some 1536; Some 2048]
  ∧ run_acc r = {[ "main_output"%string := mk_ndarray float32 1 ex_ramp ]}
  ∧ run_acc r !! "main_output"%string = Some (mk_ndarray float32 1 ex_ramp).
Proof.
  intros r.
  assert (Hlen : length ex_ramp = 2048%nat) by (vm_compute; reflexivity).
  assert (Hfuel : (5 ≤ 5)%nat) by lia.
  split; [exact Hlen|]. split; [exact Hfuel|].
  exact (passthrough_512_2048 Z 0 id_cast float32 ex_ramp 16000%Q tt 0 5
           Hlen Hfuel).
Defined.

(** C9, witness: two rows ending at position 4 of a buffer of five. *)
Lemma write_stays_in_bounds_witness :
  let online_arrs : gmap string (ndarray Z) :=
    {[ "main_output"%string := column [0; 0; 0; 0; 0] ]} in
  let online_arrs' : gmap string (ndarray Z) :=
    {[ "main_output"%string := column [0; 0; 8; 9; 0] ]} in
  let data := column [8; 9] in
  0 ≤ 4
  ∧ store Z 0 id_cast ex_buffer5 float32 online_arrs
      ("main_output"%string, (Some 4, Some data)) = Ok online_arrs'
  ∧ ∃ a', online_arrs' = <["main_output"%string := a']> online_arrs
          ∧ shape0 a' = 5%nat
          ∧ arr_rows a' !! 0%nat = Some [0]
          ∧ arr_rows a' !! 4%nat = Some [0].
Proof.
  intros online_arrs online_arrs' data.
  assert (Hpos : 0 ≤ 4) by lia.
  assert (Hstore : store Z 0 id_cast ex_buffer5 float32 online_arrs
                     ("main_output"%string, (Some 4, Some data))
                   = Ok online_arrs') by (vm_compute; reflexivity).
  split; [exact Hpos|]. split; [exact Hstore|].
  destruct (write_stays_in_bounds Z 0 id_cast ex_buffer5 float32 online_arrs
              online_arrs' "main_output" 4 data Hpos Hstore)
    as (a' & Heq & Hrows & Hout & _).
  exists a'. split; [exact Heq|]. split; [exact Hrows|].
  split; [apply (Hout 0%nat) | apply (Hout 4%nat)];
    change (shape0 data) with 2%nat; lia.
Defined.

(** C10, witness: five samples in chunks of two; the input is float64 and
    of rank one, the output float32, of rank one and of length five. *)
Lemma compute_numpy_keeps_shape_witness :
  let sound := Rank1 float64 [1; 2; 3; 4; 5] in
  let out := Rank1 float32 [1; 2; 3; 4; 0] in
  compute_numpy Z 0 id_cast unit unit (passthrough Z (params unit unit))
    sound 16000%Q (ex_params 2) 10 = Some (Ok out)
  ∧ ∃ c,
      first_chunk "main_output"
        (items (run_trace
                  (run_one_class_offline Z 0 id_cast
                     (passthrough Z (params unit unit))
                     (prepared Z id_cast sound) 2 float32 16000%Q
                     (ex_params 2) 0 10)))
      = Some (Some c)
      ∧ float32 = float32
      ∧ length [1; 2; 3; 4; 0] = length [1; 2; 3; 4; 5].
Proof.
  intros sound out.
  assert (Hrun : compute_numpy Z 0 id_cast unit unit
                   (passthrough Z (params unit unit)) sound 16000%Q
                   (ex_params 2) 10 = Some (Ok out))
    by (vm_compute; reflexivity).
  split; [exact Hrun|].
  exact (compute_numpy_keeps_shape Z 0 id_cast unit unit
           (passthrough Z (params unit unit)) sound 16000%Q (ex_params 2) 10
           out Hrun).
Defined.


(** C6, witness: the pass-through class on [ex_wav], chunks of four
    frames, a limit of two seconds: the loop breaks after two chunks,
    with eight frames written, on which the test holds; it fails on the
    four frames written before. *)
Lemma duration_limit_stops_stream_witness :
  let call := compute_wave_file Z 0 id_cast unit unit
                (passthrough Z (params unit unit)) true "in.wav" "out.wav"
                (Some ex_limit) (ex_params 4) ex_fs 10 in
  let o : wave_outcome Z unit unit (passthrough Z (params unit unit)) :=
    mk_wave_outcome (set_file ex_fs (ex_path "out.wav") (run_acc ex_run))
      (Some ex_run) Broke in
  let test pos :=
    limit_reached (Some ex_limit) pos (float_of_Z (samplerate ex_wav)) in
  call = Ended o
  ∧ file_at ex_fs "in.wav" = Some ex_wav
  ∧ wo_run o = Some ex_run
  ∧ (wo_stop o = Exhausted ∨ wo_stop o = Broke)
  ∧ gapless Z 4 0 (run_trace ex_run) = true
  ∧ ∃ out_wav,
      file_at (wo_files o) "out.wav" = Some out_wav
      ∧ frames out_wav = written Z id_cast (run_trace ex_run)
      ∧ length (frames out_wav) = 8%nat
      ∧ test (Some (Z.of_nat (length (frames out_wav)))) = Ok true
      ∧ ∃ w' : Z,
          (w' = 0 ∨ test (Some w') = Ok false)
          ∧ w' ≤ Z.of_nat (length (frames out_wav)) ≤ w' + 4.
Proof.
  intros call o test.
  assert (Hcall : call = Ended o) by (vm_compute; reflexivity).
  assert (Hin : file_at ex_fs "in.wav" = Some ex_wav)
    by (vm_compute; reflexivity).
  assert (Hrun : wo_run o = Some ex_run) by reflexivity.
  assert (Hstop : wo_stop o = Exhausted ∨ wo_stop o = Broke)
    by (right; reflexivity).
  assert (Hgap : gapless Z 4 0 (run_trace ex_run) = true)
    by (vm_compute; reflexivity).
  split; [exact Hcall|]. split; [exact Hin|]. split; [exact Hrun|].
  split; [exact Hstop|]. split; [exact Hgap|].
  destruct (duration_limit_stops_stream Z 0 id_cast unit unit
              (passthrough Z (params unit unit)) "in.wav" "out.wav" ex_limit
              (ex_params 4) ex_fs 10 ex_wav o ex_run Hcall Hin Hrun Hstop)
    as (out_wav & Hout & Hframes & _ & _ & Hbounds).
  exists out_wav. split; [exact Hout|]. split; [exact Hframes|].
  split; [rewrite Hframes; vm_compute; reflexivity|].
  exact (Hbounds Hgap).
Defined.

(** C6, counterexample: the class with one call of warm-up on the same
    file.  The loop breaks on the second call, at position 8 = 2 s; only
    the second chunk was written, so the output lasts 4 / 4 = 1 s, less
    than [min(2 s, 16 / 4 s)], and the test of the loop fails on its four
    frames. *)
Lemma duration_limit_counterexample :
  let call := compute_wave_file Z 0 id_cast unit unit
                (warmup Z (params unit unit)) true "in.wav" "out.wav"
                (Some ex_limit) (ex_params 4) ex_fs 10 in
  match call with
  | Ended o => wo_stop o = Broke
  | InputEmptied _ => False
  end
  ∧ frames <$> file_at (files_after call) "out.wav"
    = Some [[5]; [6]; [7]; [8]]
  ∧ float_value (float_of_Z 2) = 2%Q
  ∧ float_value (float_of_Z (samplerate ex_wav)) = 4%Q
  ∧ (inject_Z (Z.of_nat (length [[5]; [6]; [7]; [8]])) / 4
     < Qmin 2 (inject_Z (Z.of_nat (length (frames ex_wav))) / 4))%Q
  ∧ limit_reached (Some ex_limit) (Some 4) (float_of_Z (samplerate ex_wav))
    = Ok false.
Proof.
  intros call.
  split; [vm_compute; reflexivity|]. split; [vm_compute; reflexivity|].
  split; [vm_compute; reflexivity|]. split; [vm_compute; reflexivity|].
  split; vm_compute; reflexivity.
Qed.

(** The rounding of the quotient shows in the test: at 10 Hz the float
    nearest to a tenth of a second is reached by the first frame, whose
    duration of 1/10 s is below the rational that float stands for. *)
Lemma limit_reached_rounds :
  let tenth := SFdiv prec emax (float_of_Z 1) (float_of_Z 10) in
  limit_reached (Some (Float tenth)) (Some 1) (float_of_Z 10) = Ok true
  ∧ (1 / 10 < float_value tenth)%Q.
Proof. split; vm_compute; reflexivity. Qed.

(** C9, counterexample.  A chunk without rows passes the test of line 81
    at position 5 of a buffer of four rows, beyond its end; and a chunk of
    two rows at position -2 passes it on a buffer of ten rows and is
    written to rows 6 and 7, its slice counted from the end. *)
Lemma guard_passes_outside_bounds :
  fits Z (column [1; 2; 3; 4]) 5 (column []) = true
  ∧ (Z.of_nat (shape0 (column [1; 2; 3; 4])) <? 5) = true
  ∧ fits Z (column [0; 0; 0; 0; 0; 0; 0; 0; 0; 0]) (-2) (column [7; 7]) = true
  ∧ store Z 0 id_cast (column [0; 0; 0; 0; 0; 0; 0; 0; 0; 0]) float32
      {[ "main_output"%string := column [0; 0; 0; 0; 0; 0; 0; 0; 0; 0] ]}
      ("main_output"%string, (Some (-2), Some (column [7; 7])))
    = Ok {[ "main_output"%string := column [0; 0; 0; 0; 0; 0; 7; 7; 0; 0] ]}.
Proof. repeat split; vm_compute; reflexivity. Qed.

Arguments as_array {sample} _.
Arguments channels {sample} _.

(** ** Scenarios for the further properties *)

(** Rows of one sample each. *)
Definition rows_of (xs : list Z) : list (list Z) := map (fun x => [x]) xs.

(** A dict with a chunk for the main output and nothing for 'aux'. *)
Definition ex_returns : returns Z :=
  [("main_output"%string, (Some 2, Some (column [8; 9])));
   ("aux"%string, (None, None))].

(** X1, witness: the stream 'aux' reports nothing and gets no buffer. *)
Lemma store_all_leaves_silent_stream_witness :
  let online_arrs' : gmap string (ndarray Z) :=
    {[ "main_output"%string := column [8; 9; 0; 0; 0] ]} in
  store_all Z 0 id_cast ex_buffer5 float32 ex_returns ∅ = Ok online_arrs'
  ∧ first_chunk "aux" ex_returns = None
  ∧ online_arrs' !! "aux"%string = (∅ : gmap string (ndarray Z)) !! "aux"%string.
Proof.
  intros online_arrs'.
  assert (Hst : store_all Z 0 id_cast ex_buffer5 float32 ex_returns ∅
                = Ok online_arrs') by (vm_compute; reflexivity).
  assert (Hfirst : first_chunk "aux" ex_returns = None)
    by (vm_compute; reflexivity).
  split; [exact Hst|]. split; [exact Hfirst|].
  exact (store_all_leaves_silent_stream Z 0 id_cast ex_buffer5 float32
           ex_returns ∅ online_arrs' "aux" Hst Hfirst).
Defined.

(** X2, witness: five samples in chunks of two through the pass-through
    class. *)
Lemma offline_returns_main_output_witness :
  let r := run_one_class_offline Z 0 id_cast (passthrough Z unit) ex_buffer5 2
             float32 16000%Q tt 0 10 in
  run_stop r = Exhausted
  ∧ ∃ a, run_acc r !! "main_output"%string = Some a
         ∧ shape0 a = 5%nat
         ∧ arr_dtype Z a = float32.
Proof.
  intros r.
  assert (Hstop : run_stop r = Exhausted) by (vm_compute; reflexivity).
  split; [exact Hstop|].
  exact (offline_returns_main_output Z 0 id_cast (passthrough Z unit)
           ex_buffer5 2 float32 16000%Q tt 0 10 Hstop).
Defined.

(** X3, witness: a stereo file and only a 'left' entry. *)
Lemma loss_params_cover_stereo_witness :
  let p' : params unit unit :=
    mk_params 4 0 (<["right"%string := tt]> {[ "left"%string := tt ]}) tt in
  (2 ≤ 2)%nat
  ∧ fill_loss_params unit unit (ex_params 4) 2 = Ok p'
  ∧ (2 ≤ size (loss_params unit unit p'))%nat
  ∧ loss_params unit unit p' !! "left"%string
    = loss_params unit unit (ex_params 4) !! "left"%string.
Proof.
  intros p'.
  assert (Hnb : (2 ≤ 2)%nat) by lia.
  assert (Hfill : fill_loss_params unit unit (ex_params 4) 2 = Ok p')
    by (vm_compute; reflexivity).
  split; [exact Hnb|]. split; [exact Hfill|].
  destruct (loss_params_cover_stereo unit unit (ex_params 4) p' 2 Hnb Hfill)
    as (Hsize & _ & _ & Hother).
  split; [exact Hsize|]. apply Hother. discriminate.
Defined.

(** X4, witness: the output named [./in.wav]. *)
Lemma compute_wave_file_other_files_witness :
  let call := compute_wave_file Z 0 id_cast unit unit
                (passthrough Z (params unit unit)) true "in.wav" "./in.wav"
                None (ex_params 4) ex_fs 10 in
  let emptied := set_file ex_fs (ex_path "in.wav") (mk_SoundFile 1 4 []) in
  "in.wav"%string ≠ "./in.wav"%string
  ∧ fs_path ex_fs "in.wav" = fs_path ex_fs "./in.wav"
  ∧ file_at ex_fs "in.wav" = Some ex_wav
  ∧ fs_refuses ex_fs "./in.wav" (channels ex_wav) (samplerate ex_wav) = None
  ∧ file_at emptied "in.wav" = Some (mk_SoundFile 1 4 [])
  ∧ (call = InputEmptied emptied
     ∨ call = Ended (mk_wave_outcome emptied None (Failed (KeyError "left")))).
Proof.
  intros call emptied.
  assert (Hne : "in.wav"%string ≠ "./in.wav"%string) by discriminate.
  assert (Hsame : fs_path ex_fs "in.wav" = fs_path ex_fs "./in.wav")
    by reflexivity.
  assert (Hin : file_at ex_fs "in.wav" = Some ex_wav)
    by (vm_compute; reflexivity).
  assert (Hopen : fs_refuses ex_fs "./in.wav" (channels ex_wav)
                    (samplerate ex_wav) = None) by reflexivity.
  split; [exact Hne|]. split; [exact Hsame|]. split; [exact Hin|].
  split; [exact Hopen|].
  destruct (compute_wave_file_other_files Z 0 id_cast unit unit
              (passthrough Z (params unit unit)) true "in.wav" "./in.wav"
              None (ex_params 4) ex_fs 10) as [_ Halias].
  exact (Halias ex_wav eq_refl Hne Hsame Hin Hopen).
Defined.

(** X5, witness: a call with a limit. *)
Lemma output_file_has_input_header_witness :
  fs_path ex_fs "in.wav" ≠ fs_path ex_fs "out.wav"
  ∧ file_at ex_fs "in.wav" = Some ex_wav
  ∧ fs_refuses ex_fs "out.wav" (channels ex_wav) (samplerate ex_wav) = None
  ∧ ∃ o out_wav,
      compute_wave_file Z 0 id_cast unit unit
        (passthrough Z (params unit unit)) true "in.wav" "out.wav"
        (Some ex_limit) (ex_params 4) ex_fs 10 = Ended o
      ∧ file_at (wo_files o) "out.wav" = Some out_wav
      ∧ channels out_wav = channels ex_wav
      ∧ samplerate out_wav = samplerate ex_wav.
Proof.
  assert (Hfiles : fs_path ex_fs "in.wav" ≠ fs_path ex_fs "out.wav")
    by (vm_compute; discriminate).
  assert (Hin : file_at ex_fs "in.wav" = Some ex_wav)
    by (vm_compute; reflexivity).
  assert (Hopen : fs_refuses ex_fs "out.wav" (channels ex_wav)
                    (samplerate ex_wav) = None) by reflexivity.
  split; [exact Hfiles|]. split; [exact Hin|]. split; [exact Hopen|].
  pose proof (output_file_has_input_header Z 0 id_cast unit unit
                (passthrough Z (params unit unit)) "in.wav" "out.wav"
                (Some ex_limit) (ex_params 4) ex_fs 10 ex_wav Hfiles Hin)
    as Hcall.
  cbv zeta in Hcall. rewrite Hopen in Hcall. exact Hcall.
Defined.

(** X6, witness: [chunksize = 0]. *)
Lemma early_failure_leaves_empty_output_witness :
  fs_path ex_fs "in.wav" ≠ fs_path ex_fs "out.wav"
  ∧ file_at ex_fs "in.wav" = Some ex_wav
  ∧ fs_refuses ex_fs "out.wav" (channels ex_wav) (samplerate ex_wav) = None
  ∧ chunksize_ unit unit (ex_params 0) = 0
  ∧ ∃ o,
      compute_wave_file Z 0 id_cast unit unit
        (passthrough Z (params unit unit)) true "in.wav" "out.wav" None
        (ex_params 0) ex_fs 10 = Ended o
      ∧ wo_files o
        = set_file ex_fs (fs_path ex_fs "out.wav")
            (mk_SoundFile (channels ex_wav) (samplerate ex_wav) [])
      ∧ (wo_stop o = Failed (KeyError "left")
         ∨ wo_stop o = Failed ZeroDivisionError).
Proof.
  assert (Hfiles : fs_path ex_fs "in.wav" ≠ fs_path ex_fs "out.wav")
    by (vm_compute; discriminate).
  assert (Hin : file_at ex_fs "in.wav" = Some ex_wav)
    by (vm_compute; reflexivity).
  assert (Hopen : fs_refuses ex_fs "out.wav" (channels ex_wav)
                    (samplerate ex_wav) = None) by reflexivity.
  assert (Hcs : chunksize_ unit unit (ex_params 0) = 0) by reflexivity.
  split; [exact Hfiles|]. split; [exact Hin|]. split; [exact Hopen|].
  split; [exact Hcs|].
  exact (early_failure_leaves_empty_output Z 0 id_cast unit unit
           (passthrough Z (params unit unit)) "in.wav" "out.wav" None
           (ex_params 0) ex_fs 10 ex_wav Hfiles Hin Hopen (or_intror Hcs)).
Defined.

(** X7, witness: frames 4 to 20 of a file of 16. *)
Lemma WaveNumpy_reads_like_array_witness :
  0 ≤ 4
  ∧ 4 ≤ Z.of_nat (length (frames ex_wav))
  ∧ 4 ≤ 20
  ∧ buf_getitem Z (WaveNumpy_init Z ex_wav) 4 20
    = buf_getitem Z (as_array ex_wav) 4 20.
Proof.
  assert (H0 : 0 ≤ 4) by lia.
  assert (H1 : 4 ≤ Z.of_nat (length (frames ex_wav)))
    by (vm_compute; discriminate).
  assert (H2 : 4 ≤ 20) by lia.
  split; [exact H0|]. split; [exact H1|]. split; [exact H2|].
  destruct (WaveNumpy_reads_like_array Z ex_wav 4 20 H0 H1 H2)
    as (_ & _ & Hget).
  exact Hget.
Defined.

(** X8, witness: the loop of [compute_wave_file] over [ex_wav]. *)
Lemma loop_on_file_is_loop_on_array_witness :
  0 ≤ 4
  ∧ loop Z 0 (passthrough Z unit) (WaveNumpy_init Z ex_wav) 4 float32 tt
      (wave_consume Z id_cast None (float_of_Z 4)) 10 (mk_SoundFile 1 4 [])
    = loop Z 0 (passthrough Z unit) (as_array ex_wav) 4 float32 tt
        (wave_consume Z id_cast None (float_of_Z 4)) 10 (mk_SoundFile 1 4 []).
Proof.
  assert (Hcs : 0 ≤ 4) by lia.
  split; [exact Hcs|].
  exact (loop_on_file_is_loop_on_array Z 0 (passthrough Z unit) ex_wav 4
           float32 (wave_consume Z id_cast None (float_of_Z 4)) tt 10
           (mk_SoundFile 1 4 []) Hcs).
Defined.

(** X9, witness: five samples in chunks of two: three iterations, the
    fifth sample lost. *)
Lemma passthrough_drops_tail_witness :
  let r := run_one_class_offline Z 0 id_cast (passthrough Z unit)
             (mk_ndarray float32 1 (rows_of [1; 2; 3; 4; 5])) (Z.of_nat 2)
             float32 16000%Q tt 0 10 in
  (0 < 2)%nat ∧ (1 < 2)%nat
  ∧ length (rows_of [1; 2; 3; 4; 5]) = (2 * 2 + 1)%nat
  ∧ (2 + 1 < 10)%nat
  ∧ run_stop r = Exhausted
  ∧ length (run_trace r) = 3%nat
  ∧ run_acc r
    = {[ "main_output"%string :=
           mk_ndarray float32 1 (rows_of [1; 2; 3; 4; 0]) ]}.
Proof.
  intros r.
  assert (H1 : (0 < 2)%nat) by lia.
  assert (H2 : (1 < 2)%nat) by lia.
  assert (H3 : length (rows_of [1; 2; 3; 4; 5]) = (2 * 2 + 1)%nat)
    by reflexivity.
  assert (H4 : (2 + 1 < 10)%nat) by lia.
  split; [exact H1|]. split; [exact H2|]. split; [exact H3|].
  split; [exact H4|].
  exact (passthrough_drops_tail Z 0 id_cast float32 1
           (rows_of [1; 2; 3; 4; 5]) 2 2 1 16000%Q tt 0 10 H1 H2 H3 H4).
Defined.

(** X10, witness: 16 frames in chunks of five: 15 frames copied, then
    five frames of zeros. *)
Lemma passthrough_stream_pads_tail_witness :
  fs_path ex_fs "in.wav" ≠ fs_path ex_fs "out.wav"
  ∧ file_at ex_fs "in.wav" = Some ex_wav
  ∧ fs_refuses ex_fs "out.wav" (channels ex_wav) (samplerate ex_wav) = None
  ∧ fill_loss_params unit unit (ex_params 5) (channels ex_wav)
    = Ok (ex_params 5)
  ∧ chunksize_ unit unit (ex_params 5) = Z.of_nat 5
  ∧ (0 < 5)%nat ∧ (1 < 5)%nat
  ∧ length (frames ex_wav) = (3 * 5 + 1)%nat
  ∧ (3 + 1 < 10)%nat
  ∧ ∃ o,
      compute_wave_file Z 0 id_cast unit unit
        (passthrough Z (params unit unit)) true "in.wav" "out.wav" None
        (ex_params 5) ex_fs 10 = Ended o
      ∧ wo_stop o = Exhausted
      ∧ file_at (wo_files o) "out.wav"
        = Some (mk_SoundFile 1 4
                  (rows_of [1; 2; 3; 4; 5; 6; 7; 8; 9; 10; 11; 12; 13; 14; 15;
                            0; 0; 0; 0; 0])).
Proof.
  assert (Hfiles : fs_path ex_fs "in.wav" ≠ fs_path ex_fs "out.wav")
    by (vm_compute; discriminate).
  assert (Hin : file_at ex_fs "in.wav" = Some ex_wav)
    by (vm_compute; reflexivity).
  assert (Hopen : fs_refuses ex_fs "out.wav" (channels ex_wav)
                    (samplerate ex_wav) = None) by reflexivity.
  assert (Hfill : fill_loss_params unit unit (ex_params 5) (channels ex_wav)
                  = Ok (ex_params 5)) by (vm_compute; reflexivity).
  assert (Hcs : chunksize_ unit unit (ex_params 5) = Z.of_nat 5)
    by reflexivity.
  assert (H1 : (0 < 5)%nat) by lia.
  assert (H2 : (1 < 5)%nat) by lia.
  assert (H3 : length (frames ex_wav) = (3 * 5 + 1)%nat) by reflexivity.
  assert (H4 : (3 + 1 < 10)%nat) by lia.
  split; [exact Hfiles|]. split; [exact Hin|]. split; [exact Hopen|].
  split; [exact Hfill|].
  split; [exact Hcs|]. split; [exact H1|]. split; [exact H2|].
  split; [exact H3|]. split; [exact H4|].
  exact (passthrough_stream_pads_tail Z 0 id_cast unit unit "in.wav" "out.wav"
           (ex_params 5) (ex_params 5) ex_fs 10 ex_wav 5 3 1 Hfiles Hin Hopen
           Hfill Hcs H1 H2 H3 H4).
Defined.

(** X11, witness: the first result of the class with one call of
    warm-up. *)
Lemma yielded_results_have_main_output_witness :
  let it := mk_iteration 2 (column [1; 2])
              [("main_output"%string, (None, None))] in
  run_trace
    (loop Z 0 (warmup Z unit) ex_buffer5 2 float32 O
       (offline_consume Z 0 id_cast ex_buffer5 float32) 10 ∅)
    !! 0%nat = Some it
  ∧ ∃ v, returns_lookup Z "main_output" (it_returns it) = Ok v.
Proof.
  intros it.
  assert (Hi : run_trace
                 (loop Z 0 (warmup Z unit) ex_buffer5 2 float32 O
                    (offline_consume Z 0 id_cast ex_buffer5 float32) 10 ∅)
               !! 0%nat = Some it) by (vm_compute; reflexivity).
  split; [exact Hi|].
  exact (yielded_results_have_main_output Z 0 (warmup Z unit) ex_buffer5 2
           float32 (offline_consume Z 0 id_cast ex_buffer5 float32) O 10 ∅
           0%nat it Hi).
Defined.

(** X12, witness: two buffers of five samples that differ in the
    fifth. *)
Lemma tail_rows_have_no_influence_witness :
  let l1 := rows_of [1; 2; 3; 4; 5] in
  let l2 := rows_of [1; 2; 3; 4; 9] in
  (0 < 2)%nat
  ∧ length l1 = length l2
  ∧ (2 * 2 ≤ length l1 < 3 * 2)%nat
  ∧ take (2 * 2) l1 = take (2 * 2) l2
  ∧ run_one_class_offline Z 0 id_cast (warmup Z unit)
      (mk_ndarray float32 1 l1) (Z.of_nat 2) float32 16000%Q tt 0 10
    = run_one_class_offline Z 0 id_cast (warmup Z unit)
        (mk_ndarray float32 1 l2) (Z.of_nat 2) float32 16000%Q tt 0 10.
Proof.
  intros l1 l2.
  assert (H1 : (0 < 2)%nat) by lia.
  assert (H2 : length l1 = length l2) by reflexivity.
  assert (H3 : (2 * 2 ≤ length l1 < 3 * 2)%nat) by (simpl; lia).
  assert (H4 : take (2 * 2) l1 = take (2 * 2) l2) by reflexivity.
  split; [exact H1|]. split; [exact H2|]. split; [exact H3|].
  split; [exact H4|].
  exact (tail_rows_have_no_influence Z 0 id_cast (warmup Z unit) float32
           float32 1 l1 l2 2 2 16000%Q tt 0 10 H1 H2 H3 H4).
Defined.

(** X13, witness: two rows stored at position 4, twice. *)
Lemma store_twice_is_store_once_witness :
  let online_arrs : gmap string (ndarray Z) :=
    {[ "main_output"%string := column [0; 0; 0; 0; 0] ]} in
  let online_arrs' : gmap string (ndarray Z) :=
    {[ "main_output"%string := column [0; 0; 8; 9; 0] ]} in
  store Z 0 id_cast ex_buffer5 float32 online_arrs
    ("main_output"%string, (Some 4, Some (column [8; 9]))) = Ok online_arrs'
  ∧ store Z 0 id_cast ex_buffer5 float32 online_arrs'
      ("main_output"%string, (Some 4, Some (column [8; 9]))) = Ok online_arrs'.
Proof.
  intros online_arrs online_arrs'.
  assert (Hst : store Z 0 id_cast ex_buffer5 float32 online_arrs
                  ("main_output"%string, (Some 4, Some (column [8; 9])))
                = Ok online_arrs') by (vm_compute; reflexivity).
  split; [exact Hst|].
  exact (store_twice_is_store_once Z 0 id_cast ex_buffer5 float32 online_arrs
           online_arrs' "main_output" 4 (column [8; 9]) Hst).
Defined.
